(** * md2xlsx: Markdown rendered into worksheet cells

    A shallow embedding of [md2xlsx.py].  The Python program builds its
    document out of mutable objects that are shared by reference
    (collectors hold lists of elements, elements hold a set of markers or a
    list of styles that [apply_marker] and [nest] mutate in place), so the
    embedding keeps an explicit object store and every method is a
    computation over that store. *)

From stdpp Require Import gmap strings list pretty.

Local Open Scope string_scope.
Local Open Scope list_scope.
Local Open Scope nat_scope.

(** ** Objects

    An address is the index of an object in the store of its class.  The
    named tuples [InlineElement] and [BlockElement] are immutable, but the
    set and the list they point to are not. *)

Record InlineElement := mkInlineElement {
  text : string;
  markers : nat       (* address of a Python set of marker strings *)
}.

Record BlockElement := mkBlockElement {
  content : nat;      (* address of an InlineCollector *)
  styles : nat        (* address of a Python list of style strings *)
}.

(** A [Collector] also has a [renderer] attribute; it is only used by
    [Collector.render], which takes the renderer's [terminate] as an
    argument here. *)
Record CollectorObj := mkCollector {
  inline : option nat;   (* None or the address of an InlineCollector *)
  block : option nat     (* None or the address of a BlockCollector *)
}.

#[global] Instance InlineElement_eq_dec : EqDecision InlineElement.
Proof. solve_decision. Defined.
#[global] Instance BlockElement_eq_dec : EqDecision BlockElement.
Proof. solve_decision. Defined.
#[global] Instance CollectorObj_eq_dec : EqDecision CollectorObj.
Proof. solve_decision. Defined.
#[global] Instance CollectorObj_inhabited : Inhabited CollectorObj :=
  populate (mkCollector None None).

(** The store: one table per class of mutable object, and the [links]
    attribute of the one [ExcelRenderer] of a conversion. *)
Record heap := Heap {
  marker_sets : list (gset string);
  style_lists : list (list string);
  inline_collectors : list (list InlineElement);  (* InlineCollector.elements *)
  block_collectors : list (list BlockElement);    (* BlockCollector.elements *)
  collectors : list CollectorObj;
  links : list string                             (* ExcelRenderer.links *)
}.

Definition empty_heap : heap := Heap [] [] [] [] [] [].

Definition upd_marker_sets (f : list (gset string) → list (gset string)) (h : heap) : heap :=
  Heap (f (marker_sets h)) (style_lists h) (inline_collectors h)
       (block_collectors h) (collectors h) (links h).
Definition upd_style_lists (f : list (list string) → list (list string)) (h : heap) : heap :=
  Heap (marker_sets h) (f (style_lists h)) (inline_collectors h)
       (block_collectors h) (collectors h) (links h).
Definition upd_inline_collectors
    (f : list (list InlineElement) → list (list InlineElement)) (h : heap) : heap :=
  Heap (marker_sets h) (style_lists h) (f (inline_collectors h))
       (block_collectors h) (collectors h) (links h).
Definition upd_block_collectors
    (f : list (list BlockElement) → list (list BlockElement)) (h : heap) : heap :=
  Heap (marker_sets h) (style_lists h) (inline_collectors h)
       (f (block_collectors h)) (collectors h) (links h).
Definition upd_collectors (f : list CollectorObj → list CollectorObj) (h : heap) : heap :=
  Heap (marker_sets h) (style_lists h) (inline_collectors h)
       (block_collectors h) (f (collectors h)) (links h).
Definition upd_links (f : list string → list string) (h : heap) : heap :=
  Heap (marker_sets h) (style_lists h) (inline_collectors h)
       (block_collectors h) (collectors h) (f (links h)).

(** ** Computations: state and exceptions *)

Inductive exn :=
  | RuntimeError (msg : string)
  | AttributeError (msg : string)
  | TypeError (msg : string)
  | ValueError (msg : string).

Inductive result (A : Type) :=
  | Ok (a : A) (h : heap)
  | Raise (e : exn) (h : heap).
Arguments Ok {A} a h.
Arguments Raise {A} e h.

Definition M (A : Type) : Type := heap → result A.

Definition ret {A} (a : A) : M A := λ h, Ok a h.
Definition bind {A B} (m : M A) (k : A → M B) : M B :=
  λ h, match m h with
       | Ok a h' => k a h'
       | Raise e h' => Raise e h'
       end.
Definition raise {A} (e : exn) : M A := λ h, Raise e h.
Definition gets {A} (f : heap → A) : M A := λ h, Ok (f h) h.
Definition modify (f : heap → heap) : M unit := λ h, Ok tt (f h).

Notation "x <- m ;; k" := (bind m (λ x, k))
  (at level 100, m at next level, right associativity,
   format "'[v' x  <-  m  ;;  '/' k ']'").
Notation "m ;; k" := (bind m (λ _, k))
  (at level 100, right associativity, format "'[v' m  ;;  '/' k ']'").

(** [for x in xs: body x] *)
Fixpoint for_each {A} (xs : list A) (body : A → M unit) : M unit :=
  match xs with
  | [] => ret tt
  | x :: xs' => body x ;; for_each xs' body
  end.

(** [enumerate(xs, start)] *)
Fixpoint enumerate {A} (start : nat) (xs : list A) : list (nat * A) :=
  match xs with
  | [] => []
  | x :: xs' => (start, x) :: enumerate (S start) xs'
  end.

(** Allocation of a fresh object: it gets the next address of its table. *)
Definition new_set (s : gset string) : M nat :=
  λ h, Ok (length (marker_sets h)) (upd_marker_sets (λ t, t ++ [s]) h).
Definition new_list (l : list string) : M nat :=
  λ h, Ok (length (style_lists h)) (upd_style_lists (λ t, t ++ [l]) h).
Definition new_inline_collector : M nat :=
  λ h, Ok (length (inline_collectors h)) (upd_inline_collectors (λ t, t ++ [[]]) h).
Definition new_block_collector : M nat :=
  λ h, Ok (length (block_collectors h)) (upd_block_collectors (λ t, t ++ [[]]) h).
Definition new_collector : M nat :=
  λ h, Ok (length (collectors h)) (upd_collectors (λ t, t ++ [mkCollector None None]) h).

(** Reading an object: an address that was never allocated reads as the
    empty object (Python has no such address). *)
Definition get_markers (h : heap) (a : nat) : gset string := marker_sets h !!! a.
Definition get_styles (h : heap) (a : nat) : list string := style_lists h !!! a.
Definition get_collector (h : heap) (a : nat) : CollectorObj := collectors h !!! a.

(** ** InlineCollector *)

Module InlineCollector.

Definition elements (h : heap) (self : nat) : list InlineElement :=
  inline_collectors h !!! self.

Definition append (self : nat) (text : string) : M nat :=
  markers <- new_set ∅ ;;
  modify (upd_inline_collectors
            (alter (λ es, es ++ [mkInlineElement text markers]) self)) ;;
  ret self.

Definition __init__ (text : option string) : M nat :=
  self <- new_inline_collector ;;
  match text with
  | Some t => append self t
  | None => ret self
  end.

(* [self.elements += bucket.elements]: the elements themselves are
   shared between the two collectors afterwards. *)
Definition __iadd__ (self bucket : nat) : M nat :=
  es <- gets (λ h, elements h bucket) ;;
  modify (upd_inline_collectors (alter (λ l, l ++ es) self)) ;;
  ret self.

Definition apply_marker (self : nat) (marker : string) : M nat :=
  es <- gets (λ h, elements h self) ;;
  for_each es (λ element,
    modify (upd_marker_sets (alter (λ s, s ∪ {[marker]}) (markers element)))) ;;
  ret self.

End InlineCollector.

(** ** BlockCollector *)

Module BlockCollector.

Definition elements (h : heap) (self : nat) : list BlockElement :=
  block_collectors h !!! self.

Definition append (self : nat) (content : nat) : M unit :=
  styles <- new_list [] ;;
  modify (upd_block_collectors
            (alter (λ es, es ++ [mkBlockElement content styles]) self)).

Definition __init__ (content : option nat) : M nat :=
  self <- new_block_collector ;;
  match content with
  | Some c => append self c
  | None => ret tt
  end ;;
  ret self.

Definition __iadd__ (self other : nat) : M nat :=
  es <- gets (λ h, elements h other) ;;
  modify (upd_block_collectors (alter (λ l, l ++ es) self)) ;;
  ret self.

(* [element.styles.insert(0, style)] for every element, in order. *)
Definition nest (self : nat) (style : string) : M nat :=
  es <- gets (λ h, elements h self) ;;
  for_each es (λ element,
    modify (upd_style_lists (alter (λ l, style :: l) (styles element)))) ;;
  ret self.

End BlockCollector.

(** ** The worksheet (openpyxl)

    The library objects the program builds and the part of a worksheet it
    writes: a cell has rich text (a sequence of runs, each with a font or
    None) and a font, an alignment and a fill, None standing for the
    default of a new cell. *)

Module openpyxl.

Inductive Color := theme (n : nat) | rgb (s : string).

Record Font := mkFont {
  name : string; sz : nat; family : nat; b : bool; i : bool;
  color : Color; u : option string; strike : option bool;
  scheme : option string
}.

(* [Alignment()] has indent 0; no other attribute is touched. *)
Record Alignment := mkAlignment { indent : nat }.

Record PatternFill := mkPatternFill {
  fill_type : string; start_color : string; end_color : string
}.

Record Cell := mkCell {
  rich_text : list (string * option Font);
  font : option Font;
  alignment : option Alignment;
  fill : option PatternFill
}.

Definition new_cell : Cell := mkCell [] None None None.

#[global] Instance Color_eq_dec : EqDecision Color.
Proof. solve_decision. Defined.
#[global] Instance Font_eq_dec : EqDecision Font.
Proof. solve_decision. Defined.
#[global] Instance Alignment_eq_dec : EqDecision Alignment.
Proof. solve_decision. Defined.
#[global] Instance PatternFill_eq_dec : EqDecision PatternFill.
Proof. solve_decision. Defined.

(* [ws.cell(row=, column=)]: the cell at that place, created on demand. *)
Definition cell (ws : gmap (nat * nat) Cell) (row column : nat) : Cell :=
  default new_cell (ws !! (row, column)).

(** [IndexedList]: a list that holds a value once; [add] appends a value
    that is not there yet, [index] is its position. *)
Definition IndexedList_add (l : list string) (v : string) : list string :=
  if decide (v ∈ l) then l else l ++ [v].

Definition IndexedList_index (l : list string) (v : string) : option nat :=
  fst <$> list_find (λ x, x = v) l.

End openpyxl.

Definition header_font (size : nat) : openpyxl.Font :=
  openpyxl.mkFont "Calibri" size 2 false false (openpyxl.theme 1) None None (Some "minor").

Definition FT_HEADER1 : openpyxl.Font := header_font 26.
Definition FT_HEADER2 : openpyxl.Font := header_font 22.
Definition FT_HEADER3 : openpyxl.Font := header_font 18.
Definition FT_HEADER4 : openpyxl.Font := header_font 16.
Definition FT_HEADER5 : openpyxl.Font := header_font 14.
Definition FT_HEADER6 : openpyxl.Font := header_font 12.

Definition FILL_QUOTE : openpyxl.PatternFill := openpyxl.mkPatternFill "solid" "FFA09BBB" "FFA09BBB".
Definition FILL_HRULE : openpyxl.PatternFill := openpyxl.mkPatternFill "solid" "FF000000" "FF000000".

(** ** ExcelCollectorRenderer *)

Module ExcelCollectorRenderer.

Definition FONTS : gmap string openpyxl.Font :=
  list_to_map [("h1", FT_HEADER1); ("h2", FT_HEADER2); ("h3", FT_HEADER3);
               ("h4", FT_HEADER4); ("h5", FT_HEADER5); ("h6", FT_HEADER6)].

(* [row] is the next value of [itertools.count(row)]. *)
Record t := mk {
  ws : gmap (nat * nat) openpyxl.Cell;
  row : nat;
  col : nat
}.

Definition __init__ (worksheet : gmap (nat * nat) openpyxl.Cell) (row col : nat) : t :=
  mk worksheet row col.

Definition prepare_cell (cell : openpyxl.Cell) (content : nat) (styles : list string)
    : openpyxl.Cell :=
  let rich_text : list (string * option openpyxl.Font) := [] in
  let rich_text :=
    if decide ("list_item" ∈ styles) then rich_text ++ [("â€¢ ", None)]
    else rich_text in
  openpyxl.mkCell rich_text (openpyxl.font cell) (openpyxl.alignment cell)
                  (openpyxl.fill cell).

(* [alignment.indent += 2], on a new [Alignment()] when there is none. *)
Definition indent_more (alignment : option openpyxl.Alignment) : option openpyxl.Alignment :=
  let a := default (openpyxl.mkAlignment 0) alignment in
  Some (openpyxl.mkAlignment (openpyxl.indent a + 2)).

Definition style_step
    (acc : option openpyxl.Font * option openpyxl.Alignment * option openpyxl.PatternFill)
    (style : string)
    : option openpyxl.Font * option openpyxl.Alignment * option openpyxl.PatternFill :=
  let '(font, alignment, fill) := acc in
  match FONTS !! style with
  | Some f => (Some f, alignment, fill)
  | None =>
      if decide (style ∈ ({["list"; "link"]} : gset string)) then
        (font, indent_more alignment, fill)
      else if decide (style = "quote") then
        (font, indent_more alignment,
         match fill with None => Some FILL_QUOTE | Some _ => fill end)
      else (font, alignment, fill)
  end.

Definition create_style (styles : list string)
    : option openpyxl.Font * option openpyxl.Alignment * option openpyxl.PatternFill :=
  foldl style_step (None, None, None) styles.

Definition create_font (markers : gset string) : option openpyxl.Font :=
  if decide (size markers = 0) then None
  else Some (openpyxl.mkFont
    (if decide ("c" ∈ markers) then "Consolas" else "Calibri")
    11
    (if decide ("c" ∈ markers) then 3 else 2)
    (if decide ("b" ∈ markers) then true else false)
    (if decide ("i" ∈ markers) then true else false)
    (if decide ("l" ∈ markers) then openpyxl.rgb "FF382DA0" else openpyxl.theme 1)
    (if decide ("l" ∈ markers) then Some "single" else None)
    (if decide ("s" ∈ markers) then Some true else None)
    None).

Definition fill_content (h : heap) (cell : openpyxl.Cell) (content : nat) : openpyxl.Cell :=
  foldl (λ cell element,
           let font := create_font (get_markers h (markers element)) in
           openpyxl.mkCell (openpyxl.rich_text cell ++ [(text element, font)])
                           (openpyxl.font cell) (openpyxl.alignment cell)
                           (openpyxl.fill cell))
        cell (InlineCollector.elements h content).

Definition do_cell (h : heap) (cell : openpyxl.Cell) (block : BlockElement) : openpyxl.Cell :=
  let cell := prepare_cell cell (content block) (get_styles h (styles block)) in
  let cell := fill_content h cell (content block) in
  let '(font, alignment, fill) := create_style (get_styles h (styles block)) in
  let cell :=
    match font with
    | Some _ => openpyxl.mkCell (openpyxl.rich_text cell) font
                  (openpyxl.alignment cell) (openpyxl.fill cell)
    | None => cell
    end in
  let cell :=
    match alignment with
    | Some _ => openpyxl.mkCell (openpyxl.rich_text cell) (openpyxl.font cell)
                  alignment (openpyxl.fill cell)
    | None => cell
    end in
  match fill with
  | Some _ => openpyxl.mkCell (openpyxl.rich_text cell) (openpyxl.font cell)
                (openpyxl.alignment cell) fill
  | None => cell
  end.

(* [for row, block in zip(self.row, block_collector)]: [zip] asks the
   counter first and the collector second, so the counter has moved one
   past the last row when the blocks run out. *)
Fixpoint render_loop (h : heap) (self : t) (blocks : list BlockElement) : t :=
  let r := row self in
  let self := mk (ws self) (S r) (col self) in
  match blocks with
  | [] => self
  | block :: blocks' =>
      let cell := openpyxl.cell (ws self) r (col self) in
      let cell := do_cell h cell block in
      render_loop h (mk (<[(r, col self) := cell]> (ws self)) (row self) (col self))
                  blocks'
  end.

Definition render (h : heap) (self : t) (block_collector : nat) : t :=
  render_loop h self (BlockCollector.elements h block_collector).

End ExcelCollectorRenderer.

(** ** Collector *)

(** What the Markdown processor may append to a [Collector]: the three
    classes of this program, [None], or an object of any other class, of
    which the error message shows the class name and the [repr]. *)
Inductive value :=
  | VBlockCollector (b : nat)
  | VInlineCollector (i : nat)
  | VCollector (c : nat)
  | VNone
  | VOther (class_name repr : string).

Definition set_inline (self : nat) (v : option nat) : M unit :=
  modify (upd_collectors (alter (λ c, mkCollector v (block c)) self)).
Definition set_block (self : nat) (v : option nat) : M unit :=
  modify (upd_collectors (alter (λ c, mkCollector (inline c) v) self)).

Module Collector.

Definition __init__ : M nat := new_collector.

Definition _add_block (self block_collector : nat) : M unit :=
  c <- gets (λ h, get_collector h self) ;;
  match block c with
  | None =>
      match inline c with
      | Some i =>
          b <- BlockCollector.__init__ (Some i) ;;
          set_block self (Some b) ;;
          set_inline self None
      | None =>
          b <- BlockCollector.__init__ None ;;
          set_block self (Some b)
      end
  | Some _ => ret tt
  end ;;
  (* self.block += block_collector *)
  c <- gets (λ h, get_collector h self) ;;
  match block c with
  | Some b =>
      b' <- BlockCollector.__iadd__ b block_collector ;;
      set_block self (Some b')
  | None => raise (TypeError "unsupported operand type(s) for +=")
  end.

Definition _add_inline (self inline_collector : nat) : M unit :=
  c <- gets (λ h, get_collector h self) ;;
  match inline c with
  | None => set_inline self (Some inline_collector)
  | Some i =>
      i' <- InlineCollector.__iadd__ i inline_collector ;;
      set_inline self (Some i')
  end.

Definition unexpected_type (class_name repr : string) : exn :=
  RuntimeError ("Unexpected type " +:+ class_name +:+
                " appended to Collector: " +:+ repr).

(* The nested [self += ...] of the Collector branch are written as the
   branch of [__iadd__] that the class of their operand selects:
   [other.block] and [BlockCollector(other.inline)] are BlockCollectors,
   [other.inline] is an InlineCollector or None.  [if other.inline:] is
   true for every InlineCollector (the class defines neither [__bool__]
   nor [__len__]). *)
Definition __iadd__ (self : nat) (other : value) : M nat :=
  match other with
  | VBlockCollector b => _add_block self b
  | VInlineCollector i => _add_inline self i
  | VCollector o =>
      oc <- gets (λ h, get_collector h o) ;;
      match block oc with
      | Some ob =>
          _add_block self ob ;;
          oc' <- gets (λ h, get_collector h o) ;;
          match inline oc' with
          | Some oi =>
              nb <- BlockCollector.__init__ (Some oi) ;;
              _add_block self nb
          | None => ret tt
          end
      | None =>
          match inline oc with
          | Some oi => _add_inline self oi
          | None => ret tt
          end
      end
  | VNone => ret tt
  | VOther class_name repr => raise (unexpected_type class_name repr)
  end ;;
  ret self.

(* [terminate] is [self.renderer.terminate]; the result is the
   worksheet as [renderer_class(worksheet, row, col)] leaves it. *)
Definition render (terminate : M nat) (self : nat)
    (worksheet : gmap (nat * nat) openpyxl.Cell) (row col : nat)
    : M (gmap (nat * nat) openpyxl.Cell) :=
  let renderer := ExcelCollectorRenderer.__init__ worksheet row col in
  c <- gets (λ h, get_collector h self) ;;
  match block c with
  | None =>
      b <- BlockCollector.__init__ (inline c) ;;
      set_block self (Some b) ;;
      set_inline self None
  | Some _ => ret tt
  end ;;
  last <- terminate ;;
  __iadd__ self (VCollector last) ;;
  c <- gets (λ h, get_collector h self) ;;
  match block c with
  | Some b =>
      h <- gets (λ h, h) ;;
      ret (ExcelCollectorRenderer.ws (ExcelCollectorRenderer.render h renderer b))
  | None => raise (TypeError "'NoneType' object is not iterable")
  end.

End Collector.

(** ** ExcelRenderer *)

Definition no_attribute (attr : string) : exn :=
  AttributeError ("'NoneType' object has no attribute '" +:+ attr +:+ "'").

(** [bucket.inline.<attr>]: the attribute of None does not exist. *)
Definition inline_of (bucket : nat) (attr : string) : M nat :=
  c <- gets (λ h, get_collector h bucket) ;;
  match inline c with
  | Some i => ret i
  | None => raise (no_attribute attr)
  end.

Module ExcelRenderer.

Definition placeholder : M nat := Collector.__init__.

(* ==== Block elements ==== *)

Definition _get_block (bucket : nat) : M (option nat) :=
  c <- gets (λ h, get_collector h bucket) ;;
  match inline c with
  | Some i => b <- BlockCollector.__init__ (Some i) ;; ret (Some b)
  | None => ret (block c)
  end.

(* [self._get_block(bucket).nest(style)] *)
Definition nested_block (bucket : nat) (style : string) : M nat :=
  ob <- _get_block bucket ;;
  match ob with
  | Some b => BlockCollector.nest b style
  | None => raise (no_attribute "nest")
  end.

Definition block_code (code : nat) : M nat := nested_block code "code".

Definition block_quote (text : nat) : M nat := nested_block text "quote".

Definition block_html (html : string) : value := VNone.

Definition header (text : nat) (level : nat) : M nat :=
  nested_block text ("h" +:+ pretty level).

Definition hrule : M nat :=
  i <- InlineCollector.__init__ (Some "") ;;
  b <- BlockCollector.__init__ (Some i) ;;
  BlockCollector.nest b "hrule".

Definition list_item (text : nat) : M nat := nested_block text "list_item".

Definition paragraph (text : nat) : M nat := nested_block text "paragraph".

Definition table (header body : value) : value := VNone.
Definition table_row (content : value) : value := VNone.
Definition table_cell (content : value) : value := VNone.

(* ==== Inline elements ==== *)

Definition autolink (link : nat) : M nat :=
  i <- inline_of link "apply_marker" ;;
  InlineCollector.apply_marker i "l".

Definition codespan (text : string) : M nat :=
  i <- InlineCollector.__init__ (Some text) ;;
  InlineCollector.apply_marker i "c".

Definition double_emphasis (text : nat) : M nat :=
  i <- inline_of text "apply_marker" ;;
  i <- InlineCollector.apply_marker i "i" ;;
  InlineCollector.apply_marker i "b".

Definition emphasis (text : nat) : M nat :=
  i <- inline_of text "apply_marker" ;;
  InlineCollector.apply_marker i "i".

Definition image (src title alt_text : string) : value := VNone.

Definition linebreak : M nat :=
  InlineCollector.__init__ (Some (String (Ascii.ascii_of_nat 10) EmptyString)).

Definition newline : value := VNone.

(* The first two statements of [link]: [self.links.add(link)] and
   [idx = self.links.index(link) + 1]. *)
Definition register (link : string) : M nat :=
  modify (upd_links (λ l, openpyxl.IndexedList_add l link)) ;;
  ls <- gets links ;;
  match openpyxl.IndexedList_index ls link with
  | Some k => ret (k + 1)
  | None => raise (ValueError "not in list")
  end.

Definition link (link : string) (title : option string) (content : nat) : M nat :=
  idx <- register link ;;
  i <- inline_of content "apply_marker" ;;
  i <- InlineCollector.apply_marker i "l" ;;
  InlineCollector.append i ("[" +:+ pretty idx +:+ "]").

Definition strikethrough (text : nat) : M nat :=
  i <- inline_of text "apply_marker" ;;
  InlineCollector.apply_marker i "s".

Definition inline_html (text : nat) : M (option nat) :=
  c <- gets (λ h, get_collector h text) ;;
  ret (inline c).

(* The body of the loop of [terminate]: each link in a special cell with
   format "[<idx>] <link>". *)
Definition terminate_link (collector : nat) (item : nat * string) : M unit :=
  let '(idx, link) := item in
  content <- InlineCollector.__init__ (Some ("[" +:+ pretty idx +:+ "] ")) ;;
  li <- InlineCollector.__init__ (Some link) ;;
  li <- InlineCollector.apply_marker li "l" ;;
  content <- InlineCollector.__iadd__ content li ;;
  b <- BlockCollector.__init__ (Some content) ;;
  block <- BlockCollector.nest b "link" ;;
  Collector.__iadd__ collector (VBlockCollector block) ;;
  ret tt.

Definition terminate : M nat :=
  collector <- Collector.__init__ ;;
  ls <- gets links ;;
  (if decide (0 < length ls) then
     (* Blank line *)
     i <- InlineCollector.__init__ (Some "") ;;
     b <- BlockCollector.__init__ (Some i) ;;
     Collector.__iadd__ collector (VBlockCollector b) ;;
     for_each (enumerate 1 ls) (terminate_link collector) ;;
     (* Reset links *)
     modify (upd_links (λ _, []))
   else ret tt) ;;
  ret collector.

(* Defined last: their names are those of a type and of a field. *)
Definition text (text : string) : M nat := InlineCollector.__init__ (Some text).

Definition list (body : nat) : M nat := nested_block body "list".

End ExcelRenderer.

(** ** Reading a document out of the store *)

Definition view_inline (h : heap) (i : nat) : list (string * gset string) :=
  (λ e, (text e, get_markers h (markers e))) <$> InlineCollector.elements h i.

Definition view_element (h : heap) (e : BlockElement)
    : list (string * gset string) * list string :=
  (view_inline h (content e), get_styles h (styles e)).

Definition view_block (h : heap) (b : nat)
    : list (list (string * gset string) * list string) :=
  view_element h <$> BlockCollector.elements h b.

(** The state a computation ends in, and what it returns. *)
Definition state_of {A} (r : result A) : heap :=
  match r with Ok _ h => h | Raise _ h => h end.
Definition value_of {A} (r : result A) : option A :=
  match r with Ok a _ => Some a | Raise _ _ => None end.

(** ** Vocabulary of the statements about [create_style] *)

Definition indenting : list string := ["list"; "link"; "quote"].
Definition ignored : list string := ["paragraph"; "code"; "list_item"; "hrule"].

(** What [n] tags that indent do to an alignment. *)
Definition indented (n : nat) (a : option openpyxl.Alignment) : option openpyxl.Alignment :=
  match n with
  | 0 => a
  | _ => Some (openpyxl.mkAlignment
                 (openpyxl.indent (default (openpyxl.mkAlignment 0) a) + 2 * n))
  end.

(** The font a list of styles selects: the one of its last heading tag. *)
Definition resolved_font (f : option openpyxl.Font) (styles : list string)
    : option openpyxl.Font :=
  foldl (λ f s, match ExcelCollectorRenderer.FONTS !! s with Some g => Some g | None => f end) f styles.

Definition count_indenting (styles : list string) : nat :=
  length (filter (λ s, s ∈ indenting) styles).

(** ** The link registry over a conversion *)

(** The indices that a sequence of calls of [link] gets, in order. *)
Fixpoint register_all (targets : list string) : M (list nat) :=
  match targets with
  | [] => ret []
  | target :: targets' =>
      idx <- ExcelRenderer.register target ;;
      idxs <- register_all targets' ;;
      ret (idx :: idxs)
  end.

(** A new [ExcelRenderer]: [self.links = IndexedList()]. *)
Definition new_renderer (h : heap) : heap := upd_links (λ _, []) h.

(** ** Vocabulary of the statements about accumulators *)

(** How many times the style list at address [a] is reached from the
    elements [es]. *)
Definition occurrences (a : nat) (es : list BlockElement) : nat :=
  length (filter (λ e, styles e = a) es).

(** The style list of every element of the BlockCollector [b] is
    allocated. *)
Definition valid_styles (h : heap) (b : nat) : Prop :=
  Forall (λ e, styles e < length (style_lists h)) (BlockCollector.elements h b).

(** No element occurs twice in the BlockCollector [b]. *)
Definition distinct_block (h : heap) (b : nat) : Prop :=
  NoDup (styles <$> BlockCollector.elements h b).

(** Two blocks appended to one BlockCollector. *)
Definition two_blocks : M nat :=
  i <- InlineCollector.__init__ (Some "x") ;;
  acc <- BlockCollector.__init__ (Some i) ;;
  j <- InlineCollector.__init__ (Some "y") ;;
  BlockCollector.append acc j ;;
  ret acc.

(** [c = BlockCollector(InlineCollector("x"))], merged twice into a new
    BlockCollector, which is then nested in B and in A. *)
Definition merged_twice : M nat :=
  i <- InlineCollector.__init__ (Some "x") ;;
  c <- BlockCollector.__init__ (Some i) ;;
  acc <- BlockCollector.__init__ None ;;
  acc <- BlockCollector.__iadd__ acc c ;;
  acc <- BlockCollector.__iadd__ acc c ;;
  acc <- BlockCollector.nest acc "B" ;;
  BlockCollector.nest acc "A".

(** ** Vocabulary of the statements about the store *)

(** The table [t'] has every object of the table [t], unchanged. *)
Definition agree {A} `{Inhabited A} (t t' : list A) : Prop :=
  length t ≤ length t' ∧ ∀ a, a < length t → t' !!! a = t !!! a.

(** Every marker set, style list and InlineCollector of [h] is in [h'] as
    it was in [h]. *)
Definition frame (h h' : heap) : Prop :=
  agree (marker_sets h) (marker_sets h') ∧
  agree (style_lists h) (style_lists h') ∧
  agree (inline_collectors h) (inline_collectors h').

Definition valid_inline (h : heap) (i : nat) : Prop :=
  i < length (inline_collectors h) ∧
  Forall (λ e, markers e < length (marker_sets h)) (InlineCollector.elements h i).

Definition valid_element (h : heap) (e : BlockElement) : Prop :=
  styles e < length (style_lists h) ∧ valid_inline h (content e).

(** A collector with an inline pending, and a BlockCollector to append. *)
Definition inline_pending : M (nat * nat) :=
  c <- ExcelRenderer.placeholder ;;
  i <- ExcelRenderer.text "item" ;;
  c <- Collector.__iadd__ c (VInlineCollector i) ;;
  bc <- ExcelRenderer.hrule ;;
  ret (c, bc).

(** A collector with a block pending, and a BlockCollector to append. *)
Definition block_pending : M (nat * nat) :=
  c <- ExcelRenderer.placeholder ;;
  b <- ExcelRenderer.hrule ;;
  c <- Collector.__iadd__ c (VBlockCollector b) ;;
  bc <- ExcelRenderer.hrule ;;
  ret (c, bc).

(** ** Vocabulary of the statements about [terminate] *)

Definition blank_row : list (string * gset string) * list string :=
  ([("", ∅)], []).

Definition link_row (item : nat * string) : list (string * gset string) * list string :=
  ([("[" +:+ pretty item.1 +:+ "] ", ∅); (item.2, {["l"]})], ["link"]).

(** The blocks that a flush of the registry [ls] emits. *)
Definition reference_rows (ls : list string)
    : list (list (string * gset string) * list string) :=
  match ls with
  | [] => []
  | _ => blank_row :: (link_row <$> enumerate 1 ls)
  end.

(** The blocks of the collector [c]. *)
Definition emitted (h : heap) (c : nat)
    : list (list (string * gset string) * list string) :=
  match block (get_collector h c) with
  | Some b => view_block h b
  | None => []
  end.

(** ** The calls of the Markdown processor

    The program is driven by mistune: [Markdown.output] and
    [InlineLexer.output] ask the renderer for a placeholder and append to
    it, with [+=], what the renderer returns for every piece of the text.
    These are the calls for two kinds of documents. *)

(** The text "# Title", an empty line, "Hello **world**.": a header of
    level 1 and a paragraph with a double emphasis. *)
Definition title_hello_world : M nat :=
  out <- ExcelRenderer.placeholder ;;
  t <- ExcelRenderer.placeholder ;;
  x <- ExcelRenderer.text "Title" ;;
  t <- Collector.__iadd__ t (VInlineCollector x) ;;
  hb <- ExcelRenderer.header t 1 ;;
  out <- Collector.__iadd__ out (VBlockCollector hb) ;;
  p <- ExcelRenderer.placeholder ;;
  x <- ExcelRenderer.text "Hello " ;;
  p <- Collector.__iadd__ p (VInlineCollector x) ;;
  w <- ExcelRenderer.placeholder ;;
  y <- ExcelRenderer.text "world" ;;
  w <- Collector.__iadd__ w (VInlineCollector y) ;;
  de <- ExcelRenderer.double_emphasis w ;;
  p <- Collector.__iadd__ p (VInlineCollector de) ;;
  z <- ExcelRenderer.text "." ;;
  p <- Collector.__iadd__ p (VInlineCollector z) ;;
  pb <- ExcelRenderer.paragraph p ;;
  Collector.__iadd__ out (VBlockCollector pb).

(** [InlineLexer.output] on a text without markup, which the lexer cuts
    into the given chunks: [output += self.renderer.text(chunk)] for every
    chunk. *)
Definition inline_chunk (output : nat) (chunk : string) : M unit :=
  i <- ExcelRenderer.text chunk ;;
  Collector.__iadd__ output (VInlineCollector i) ;;
  ret tt.

Definition inline_output (chunks : list string) : M nat :=
  output <- ExcelRenderer.placeholder ;;
  for_each chunks (inline_chunk output) ;;
  ret output.

(** [Markdown.output] on a document made of paragraphs of plain text:
    [out += self.renderer.paragraph(self.inline(text))] for every
    paragraph. *)
Definition paragraph_token (out : nat) (chunks : list string) : M unit :=
  text <- inline_output chunks ;;
  b <- ExcelRenderer.paragraph text ;;
  Collector.__iadd__ out (VBlockCollector b) ;;
  ret tt.

Definition markdown_paragraphs (paragraphs : list (list string)) : M nat :=
  out <- ExcelRenderer.placeholder ;;
  for_each paragraphs (paragraph_token out) ;;
  ret out.

(** [convert] on such a document, from the text to the worksheet. *)
Definition convert_paragraphs (paragraphs : list (list string))
    (worksheet : gmap (nat * nat) openpyxl.Cell) (row col : nat)
    : M (gmap (nat * nat) openpyxl.Cell) :=
  result <- markdown_paragraphs paragraphs ;;
  Collector.render ExcelRenderer.terminate result worksheet row col.

(** ** Vocabulary of the statements about paragraphs *)

(** The runs of a text without markup. *)
Definition plain_runs (chunks : list string) : list (string * gset string) :=
  (λ chunk, (chunk, ∅)) <$> chunks.

(** The block of a paragraph of plain text. *)
Definition paragraph_row (chunks : list string)
    : list (string * gset string) * list string :=
  (plain_runs chunks, ["paragraph"]).

(** The collector [out] of a document in the making: no inline pending,
    and the blocks pending, if any, hold allocated objects only. *)
Definition document (h : heap) (out : nat) : Prop :=
  out < length (collectors h) ∧
  inline (get_collector h out) = None ∧
  match block (get_collector h out) with
  | Some ob =>
      ob < length (block_collectors h) ∧
      Forall (valid_element h) (BlockCollector.elements h ob)
  | None => True
  end.

(** The cell of a paragraph of plain text: its chunks as runs with no
    font, on the font, alignment and fill that the cell had. *)
Definition paragraph_cell (cell : openpyxl.Cell) (chunks : list string) : openpyxl.Cell :=
  openpyxl.mkCell ((λ chunk, (chunk, None)) <$> chunks)
                  (openpyxl.font cell) (openpyxl.alignment cell) (openpyxl.fill cell).

(** ** Stores for the examples of the statements about appending *)

(** A collector with an inline pending, and a second InlineCollector. *)
Definition inline_then_inline : M (nat * nat) :=
  c <- ExcelRenderer.placeholder ;;
  i <- ExcelRenderer.text "Hello " ;;
  c <- Collector.__iadd__ c (VInlineCollector i) ;;
  j <- ExcelRenderer.text "world" ;;
  ret (c, j).

(** A document with a block pending, and a collector that holds a block
    and a trailing inline. *)
Definition block_and_trailing_inline : M (nat * nat) :=
  out <- ExcelRenderer.placeholder ;;
  b <- ExcelRenderer.hrule ;;
  out <- Collector.__iadd__ out (VBlockCollector b) ;;
  o <- ExcelRenderer.placeholder ;;
  b' <- ExcelRenderer.hrule ;;
  o <- Collector.__iadd__ o (VBlockCollector b') ;;
  t <- ExcelRenderer.text "trailing" ;;
  o <- Collector.__iadd__ o (VInlineCollector t) ;;
  ret (out, o).

(** ** Vocabulary of the statements about markers *)

(** The runs [runs] with the marker [marker] on each of them. *)
Definition marked (marker : string) (runs : list (string * gset string))
    : list (string * gset string) :=
  (λ run, (run.1, run.2 ∪ {[marker]})) <$> runs.

(** A placeholder that holds the text "a link" as its inline. *)
Definition link_content : M nat :=
  c <- ExcelRenderer.placeholder ;;
  i <- ExcelRenderer.text "a link" ;;
  Collector.__iadd__ c (VInlineCollector i).

(** An InlineCollector merged into itself: its one run occurs twice. *)
Definition doubled_inline : M nat :=
  i <- InlineCollector.__init__ (Some "x") ;;
  InlineCollector.__iadd__ i i.

(** ** Vocabulary of the statements about merges *)

(** No style list is reached from both BlockCollectors. *)
Definition disjoint_blocks (h : heap) (b b' : nat) : Prop :=
  ∀ e e', e ∈ BlockCollector.elements h b → e' ∈ BlockCollector.elements h b' →
          styles e ≠ styles e'.

(** Two BlockCollectors of one block each. *)
Definition two_collectors : M (nat * nat) :=
  i <- InlineCollector.__init__ (Some "x") ;;
  b <- BlockCollector.__init__ (Some i) ;;
  j <- InlineCollector.__init__ (Some "y") ;;
  b' <- BlockCollector.__init__ (Some j) ;;
  ret (b, b').

(** A placeholder that holds blocks and, after them, a trailing inline. *)
Definition blocks_then_inline : M nat :=
  c <- ExcelRenderer.placeholder ;;
  b <- ExcelRenderer.hrule ;;
  c <- Collector.__iadd__ c (VBlockCollector b) ;;
  t <- ExcelRenderer.text "trailing" ;;
  Collector.__iadd__ c (VInlineCollector t).

(** ** Vocabulary of the statements about headers *)

(** The font of a header of the given level, if it has one. *)
Definition level_font (level : nat) : option openpyxl.Font :=
  match level with
  | 1 => Some FT_HEADER1
  | 2 => Some FT_HEADER2
  | 3 => Some FT_HEADER3
  | 4 => Some FT_HEADER4
  | 5 => Some FT_HEADER5
  | 6 => Some FT_HEADER6
  | _ => None
  end.

(** ** Vocabulary of the statements about cells *)

(** The cell that a block with the given runs and styles is rendered
    into, on a cell [cell]. *)
Definition row_cell (cell : openpyxl.Cell)
    (row : list (string * gset string) * list string) : openpyxl.Cell :=
  let '(font, alignment, fill) := ExcelCollectorRenderer.create_style row.2 in
  openpyxl.mkCell
    ((if decide ("list_item" ∈ row.2) then [("â€¢ ", None)] else [])
       ++ ((λ run, (run.1, ExcelCollectorRenderer.create_font run.2)) <$> row.1))
    (match font with Some _ => font | None => openpyxl.font cell end)
    (match alignment with Some _ => alignment | None => openpyxl.alignment cell end)
    (match fill with Some _ => fill | None => openpyxl.fill cell end).

(** The worksheet [worksheet] with the rows [rows] written from row [r] on
    in column [c]. *)
Definition rows_written (worksheet : gmap (nat * nat) openpyxl.Cell) (r c : nat)
    (rows : list (list (string * gset string) * list string))
    (worksheet' : gmap (nat * nat) openpyxl.Cell) : Prop :=
  ∀ r' c',
    worksheet' !! (r', c') =
      if decide (c' = c ∧ r ≤ r' < r + length rows)
      then row_cell (openpyxl.cell worksheet r' c') <$> rows !! (r' - r)
      else worksheet !! (r', c').

(** A document of one paragraph with a link in it. *)
Definition paragraph_with_link : M nat :=
  out <- ExcelRenderer.placeholder ;;
  p <- ExcelRenderer.placeholder ;;
  t <- ExcelRenderer.placeholder ;;
  x <- ExcelRenderer.text "a link" ;;
  t <- Collector.__iadd__ t (VInlineCollector x) ;;
  l <- ExcelRenderer.link "http://x" None t ;;
  p <- Collector.__iadd__ p (VInlineCollector l) ;;
  b <- ExcelRenderer.paragraph p ;;
  Collector.__iadd__ out (VBlockCollector b).

(** The part of [Collector.render] that comes after the pending inline of
    a document with no block has been wrapped into a block. *)
Definition render_pending (terminate : M nat) (self : nat)
    (worksheet : gmap (nat * nat) openpyxl.Cell) (row col : nat)
    : M (gmap (nat * nat) openpyxl.Cell) :=
  let renderer := ExcelCollectorRenderer.__init__ worksheet row col in
  last <- terminate ;;
  Collector.__iadd__ self (VCollector last) ;;
  c <- gets (λ h, get_collector h self) ;;
  match block c with
  | Some b =>
      h <- gets (λ h, h) ;;
      ret (ExcelCollectorRenderer.ws (ExcelCollectorRenderer.render h renderer b))
  | None => raise (TypeError "'NoneType' object is not iterable")
  end.

(** The rows of a collector that [Collector.render] finds with no block:
    its inline, if it has one, as one block with no style. *)
Definition inline_rows (h : heap) (c : CollectorObj)
    : list (list (string * gset string) * list string) :=
  match inline c with
  | Some i => [(view_inline h i, [])]
  | None => []
  end.

(** * Properties *)

(** ** The style resolver, [create_style] *)

Section create_style.
Import ExcelCollectorRenderer.

Lemma style_step_ignored acc t : t ∈ ignored → style_step acc t = acc.
Proof.
  destruct acc as [[f a] fl]. unfold ignored. rewrite !elem_of_cons, elem_of_nil.
  intros [->|[->|[->|[->|[]]]]]; vm_compute; reflexivity.
Qed.

Lemma style_step_indenting f a fl t :
  t ∈ indenting →
  style_step (f, a, fl) t =
    (f, indent_more a,
     if decide (t = "quote") then Some (default FILL_QUOTE fl) else fl).
Proof.
  unfold indenting. rewrite !elem_of_cons, elem_of_nil.
  intros [->|[->|[->|[]]]]; destruct fl; vm_compute; reflexivity.
Qed.

Lemma style_step_other f a fl t :
  t ∉ indenting →
  style_step (f, a, fl) t =
    (match FONTS !! t with Some g => Some g | None => f end, a, fl).
Proof.
  unfold indenting. rewrite !not_elem_of_cons. intros (Hlist & Hlink & Hquote & _).
  unfold style_step. destruct (FONTS !! t); [done|].
  rewrite decide_False; last first.
  { rewrite elem_of_union, !elem_of_singleton. intros [?|?]; congruence. }
  rewrite decide_False by done. reflexivity.
Qed.

Lemma indented_indent_more n a : indented n (indent_more a) = indented (S n) a.
Proof.
  unfold indented, indent_more. destruct n; simpl; f_equal; f_equal; lia.
Qed.

Lemma foldl_style_step styles : ∀ f a fl,
  foldl style_step (f, a, fl) styles =
    (resolved_font f styles,
     indented (count_indenting styles) a,
     if decide ("quote" ∈ styles) then Some (default FILL_QUOTE fl) else fl).
Proof.
  unfold count_indenting.
  induction styles as [|t styles IH]; intros f a fl.
  - destruct (decide ("quote" ∈ [])) as [H|_]; [by apply elem_of_nil in H|].
    reflexivity.
  - cbn [foldl]. destruct (decide (t ∈ indenting)) as [Hin|Hout].
    + rewrite style_step_indenting, IH by done.
      rewrite filter_cons_True by done. cbn [length].
      rewrite indented_indent_more. f_equal; [f_equal|].
      * cbn [resolved_font foldl].
        replace (FONTS !! t) with (@None openpyxl.Font); [done|].
        revert Hin. unfold indenting. rewrite !elem_of_cons, elem_of_nil.
        intros [->|[->|[->|[]]]]; vm_compute; reflexivity.
      * destruct (decide (t = "quote")) as [->|Hq].
        -- rewrite (decide_True (P := "quote" ∈ "quote" :: styles)) by left.
           destruct (decide ("quote" ∈ styles)); reflexivity.
        -- destruct (decide ("quote" ∈ styles)) as [Hs|Hs].
           ++ rewrite decide_True by (by right). reflexivity.
           ++ rewrite decide_False; [reflexivity|].
              rewrite elem_of_cons. intros [?|?]; congruence.
    + rewrite style_step_other, IH by done.
      rewrite filter_cons_False by done.
      f_equal.
      assert (t ≠ "quote") as Hq.
      { intros ->. apply Hout. unfold indenting. set_solver. }
      destruct (decide ("quote" ∈ styles)) as [Hs|Hs].
      * rewrite decide_True by (by right). reflexivity.
      * rewrite decide_False; [reflexivity|].
        rewrite elem_of_cons. intros [?|?]; congruence.
Qed.

Lemma create_style_filter_ignored styles :
  create_style styles = create_style (filter (λ s, s ∉ ignored) styles).
Proof.
  unfold create_style. generalize ((None, None, None) :
    option openpyxl.Font * option openpyxl.Alignment * option openpyxl.PatternFill).
  induction styles as [|t styles IH]; intros acc; [reflexivity|].
  cbn [foldl]. destruct (decide (t ∈ ignored)) as [Hin|Hout].
  - rewrite filter_cons_False by (intros H; by apply H).
    rewrite style_step_ignored by done. apply IH.
  - rewrite filter_cons_True by done. cbn [foldl]. apply IH.
Qed.

End create_style.

(** *** Claims about the style resolver *)

(** C9.  For every style list, the indent of the resolved alignment is 2
    times the number of occurrences of the tags list, link and quote, with
    no alignment at all when there is none, and the resolved fill is the
    quote fill exactly when the tag quote occurs. *)
Theorem create_style_indent_and_fill (styles : list string) :
  let n := length (filter (λ s, s ∈ ["list"; "link"; "quote"]) styles) in
  (ExcelCollectorRenderer.create_style styles).1.2 =
    (if decide (n = 0) then None else Some (openpyxl.mkAlignment (2 * n))) ∧
  (ExcelCollectorRenderer.create_style styles).2 =
    (if decide ("quote" ∈ styles) then Some FILL_QUOTE else None).
Proof.
  intros n. unfold ExcelCollectorRenderer.create_style.
  rewrite foldl_style_step. cbn [fst snd]. split; [|reflexivity].
  fold indenting in n. fold (count_indenting styles) in n. fold n.
  destruct n as [|n]; reflexivity.
Qed.

(** C10.  The tags paragraph, code, list_item and hrule are ignored by
    [create_style]: putting one anywhere in a style list, or taking it out,
    does not change the result, and a list made of such tags only resolves
    to no font, no alignment and no fill. *)
Theorem create_style_ignores_block_tags
    (t : string) (pre post only : list string)
    (Ht : t ∈ ["paragraph"; "code"; "list_item"; "hrule"])
    (Honly : Forall (λ s, s ∈ ["paragraph"; "code"; "list_item"; "hrule"]) only) :
  ExcelCollectorRenderer.create_style (pre ++ t :: post) =
    ExcelCollectorRenderer.create_style (pre ++ post) ∧
  ExcelCollectorRenderer.create_style only = (None, None, None).
Proof.
  split.
  - unfold ExcelCollectorRenderer.create_style.
    rewrite !foldl_app. cbn [foldl].
    rewrite style_step_ignored by exact Ht. reflexivity.
  - rewrite create_style_filter_ignored.
    replace (filter (λ s, s ∉ ignored) only) with (@nil string); [reflexivity|].
    symmetry. induction Honly as [|s only Hs _ IH]; [reflexivity|].
    rewrite filter_cons_False; [exact IH|]. intros H. by apply H.
Qed.

Lemma create_style_ignores_block_tags_witness :
  ExcelCollectorRenderer.create_style (["quote"; "list"] ++ "list_item" :: ["h2"]) =
    ExcelCollectorRenderer.create_style (["quote"; "list"] ++ ["h2"]) ∧
  ExcelCollectorRenderer.create_style ["hrule"; "paragraph"; "code"] = (None, None, None).
Proof.
  apply (create_style_ignores_block_tags "list_item").
  - unfold elem_of. repeat constructor.
  - repeat constructor.
Defined.

(** C6.  The tag hrule selects no font, and it selects no fill either:
    [create_style] has no case for it, [FILL_HRULE] is never the resolved
    fill, and the cell of a horizontal rule is an empty run on a cell with
    the default fill. *)
Theorem hrule_resolves_to_no_fill :
  (∀ styles, (ExcelCollectorRenderer.create_style styles).2 ≠ Some FILL_HRULE) ∧
  ExcelCollectorRenderer.create_style ["hrule"] = (None, None, None) ∧
  ∃ b h,
    ExcelRenderer.hrule empty_heap = Ok b h ∧
    view_block h b = [([("", ∅)], ["hrule"])] ∧
    ExcelCollectorRenderer.ws
      (ExcelCollectorRenderer.render h (ExcelCollectorRenderer.__init__ ∅ 1 1) b) =
      {[ (1, 1) := openpyxl.mkCell [("", None)] None None None ]}.
Proof.
  split; [|split].
  - intros styles. unfold ExcelCollectorRenderer.create_style.
    rewrite foldl_style_step. cbn [snd].
    destruct (decide ("quote" ∈ styles)); discriminate.
  - reflexivity.
  - eexists _, _. split; [reflexivity|]. split; vm_compute; reflexivity.
Qed.

(** ** The grid renderer, [render] *)

Lemma render_loop_spec h blocks : ∀ self,
  let self' := ExcelCollectorRenderer.render_loop h self blocks in
  ExcelCollectorRenderer.col self' = ExcelCollectorRenderer.col self ∧
  ExcelCollectorRenderer.row self' =
    S (ExcelCollectorRenderer.row self + length blocks) ∧
  ∀ r c,
    ExcelCollectorRenderer.ws self' !! (r, c) =
      if decide (c = ExcelCollectorRenderer.col self ∧ (ExcelCollectorRenderer.row self ≤ r)%nat)
      then match blocks !! (r - ExcelCollectorRenderer.row self) with
           | Some block =>
               Some (ExcelCollectorRenderer.do_cell h
                       (openpyxl.cell (ExcelCollectorRenderer.ws self) r c) block)
           | None => ExcelCollectorRenderer.ws self !! (r, c)
           end
      else ExcelCollectorRenderer.ws self !! (r, c).
Proof.
  induction blocks as [|block blocks IH]; intros [ws0 r0 c0]; cbn zeta.
  - cbn. split; [done|]. split; [lia|]. intros r c.
    rewrite lookup_nil. by destruct (decide _).
  - cbn [ExcelCollectorRenderer.render_loop ExcelCollectorRenderer.ws
         ExcelCollectorRenderer.row ExcelCollectorRenderer.col].
    destruct (IH (ExcelCollectorRenderer.mk
                    (<[(r0, c0) := ExcelCollectorRenderer.do_cell h
                                     (openpyxl.cell ws0 r0 c0) block]> ws0)
                    (S r0) c0)) as (Hcol & Hrow & Hws).
    cbn [ExcelCollectorRenderer.ws ExcelCollectorRenderer.row
         ExcelCollectorRenderer.col] in *.
    split; [exact Hcol|]. split; [rewrite Hrow; cbn [length]; lia|].
    intros r c. rewrite Hws.
    destruct (decide (c = c0 ∧ (S r0 ≤ r)%nat)) as [[-> Hr]|Hn].
    + rewrite decide_True by (split; [done|lia]).
      replace (r - r0) with (S (r - S r0)) by lia. cbn [lookup list_lookup].
      rewrite lookup_insert_ne by (intros ?; simplify_eq; lia).
      unfold openpyxl.cell. rewrite lookup_insert_ne by (intros ?; simplify_eq; lia).
      reflexivity.
    + destruct (decide (c = c0 ∧ (r0 ≤ r)%nat)) as [[-> Hr]|Hn'].
      * assert (r = r0) as -> by (destruct (decide (r = r0)); [done|exfalso; apply Hn; lia]).
        rewrite Nat.sub_diag. cbn [lookup list_lookup].
        apply lookup_insert_eq.
      * apply lookup_insert_ne. intros [= <- <-]. apply Hn'. done.
Qed.

(** ** The link registry *)

Section registry.
Import openpyxl.

Lemma IndexedList_index_Some l v k :
  IndexedList_index l v = Some k ↔ l !! k = Some v ∧ ∀ j, j < k → l !! j ≠ Some v.
Proof.
  unfold IndexedList_index. split.
  - intros H. apply fmap_Some in H as ([k' x] & Hfind & ->).
    apply list_find_Some in Hfind as (Hk & -> & Hbefore). cbn.
    split; [done|]. intros j Hj Hjv. by apply (Hbefore j v).
  - intros [Hk Hbefore]. apply fmap_Some. exists (k, v). split; [|done].
    apply list_find_Some. split; [done|]. split; [done|].
    intros j y Hj Hlt ->. by apply (Hbefore j).
Qed.

Lemma IndexedList_index_None l v : IndexedList_index l v = None ↔ v ∉ l.
Proof.
  unfold IndexedList_index. rewrite fmap_None, list_find_None, Forall_forall.
  split.
  - intros H Hin. by apply (H v).
  - intros H x Hin ->. done.
Qed.

Lemma IndexedList_index_app l l' v k :
  IndexedList_index l v = Some k → IndexedList_index (l ++ l') v = Some k.
Proof.
  rewrite !IndexedList_index_Some. intros [Hk Hbefore].
  split; [by apply lookup_app_l_Some|].
  intros j Hj. rewrite lookup_app_l; [by apply Hbefore|].
  apply lookup_lt_Some in Hk. lia.
Qed.

Lemma IndexedList_index_add l v :
  IndexedList_index (IndexedList_add l v) v =
    Some (default (length l) (IndexedList_index l v)).
Proof.
  unfold IndexedList_add. destruct (decide (v ∈ l)) as [Hin|Hout].
  - destruct (IndexedList_index l v) as [k|] eqn:Hk; [done|].
    by apply IndexedList_index_None in Hk.
  - pose proof Hout as Hnone. apply IndexedList_index_None in Hnone.
    rewrite Hnone. cbn. apply IndexedList_index_Some. split.
    + by apply list_lookup_middle.
    + intros j Hj. rewrite lookup_app_l by done.
      intros Hjv. apply Hout. by eapply list_elem_of_lookup_2.
Qed.

Lemma IndexedList_index_add_stable l v w k :
  IndexedList_index l v = Some k → IndexedList_index (IndexedList_add l w) v = Some k.
Proof.
  intros Hk. unfold IndexedList_add. destruct (decide (w ∈ l)); [done|].
  by apply IndexedList_index_app.
Qed.

Lemma IndexedList_add_NoDup l v : NoDup l → NoDup (IndexedList_add l v).
Proof.
  intros Hl. unfold IndexedList_add. destruct (decide (v ∈ l)); [done|].
  apply NoDup_app. split; [done|]. split.
  - intros x Hx Hxv. apply list_elem_of_singleton in Hxv as ->. done.
  - apply NoDup_singleton.
Qed.

Lemma IndexedList_add_set l v :
  (list_to_set (IndexedList_add l v) : gset string) = list_to_set l ∪ {[v]}.
Proof.
  unfold IndexedList_add. destruct (decide (v ∈ l)) as [Hin|Hout].
  - apply (elem_of_list_to_set (C := gset string)) in Hin.
    apply set_eq. intros x. rewrite elem_of_union, elem_of_singleton.
    split; [by left|]. intros [?| ->]; done.
  - rewrite list_to_set_app_L. cbn. by rewrite (right_id_L ∅ (∪)).
Qed.

(** One registration: the index is the position of the target in the
    registry, counted from 1, and nothing but the registry changes. *)
Lemma register_spec target h :
  ExcelRenderer.register target h =
    Ok (S (default (length (links h)) (IndexedList_index (links h) target)))
       (upd_links (λ l, IndexedList_add l target) h).
Proof.
  unfold ExcelRenderer.register, bind, modify, gets, ret.
  cbn -[IndexedList_index IndexedList_add].
  rewrite IndexedList_index_add. f_equal. lia.
Qed.

Lemma IndexedList_index_foldl_stable ws : ∀ l v k,
  IndexedList_index l v = Some k →
  IndexedList_index (foldl IndexedList_add l ws) v = Some k.
Proof.
  induction ws as [|w ws IH]; intros l v k Hk; [done|].
  cbn [foldl]. apply IH. by apply IndexedList_index_add_stable.
Qed.

Lemma foldl_add_NoDup ws : ∀ l, NoDup l → NoDup (foldl IndexedList_add l ws).
Proof.
  induction ws as [|w ws IH]; intros l Hl; [done|].
  cbn [foldl]. apply IH. by apply IndexedList_add_NoDup.
Qed.

Lemma foldl_add_set ws : ∀ l,
  (list_to_set (foldl IndexedList_add l ws) : gset string) =
    list_to_set l ∪ list_to_set ws.
Proof.
  induction ws as [|w ws IH]; intros l.
  - cbn. by rewrite (right_id_L ∅ (∪)).
  - cbn [foldl]. rewrite IH, IndexedList_add_set. cbn [list_to_set foldr].
    by rewrite (assoc_L (∪)).
Qed.

(** A sequence of registrations: every call returns the position, counted
    from 1, that its target has in the registry at the end. *)
Lemma register_all_spec targets : ∀ h,
  ∃ idxs,
    register_all targets h =
      Ok idxs (upd_links (λ l, foldl IndexedList_add l targets) h) ∧
    length idxs = length targets ∧
    ∀ k t, targets !! k = Some t →
      ∃ p, IndexedList_index (foldl IndexedList_add (links h) targets) t = Some p ∧
           idxs !! k = Some (S p).
Proof.
  induction targets as [|target targets IH]; intros h.
  - exists []. split; [by destruct h|]. split; [done|]. intros k t Hk. done.
  - cbn [register_all]. unfold bind at 1. rewrite register_spec.
    destruct (IH (upd_links (λ l, IndexedList_add l target) h))
      as (idxs & Hrun & Hlen & Hidx).
    unfold bind at 1. rewrite Hrun. unfold ret.
    eexists. split; [reflexivity|]. split; [cbn; lia|].
    intros [|k] t Hk.
    + cbn in Hk. injection Hk as ->. eexists. split; [|reflexivity].
      cbn [foldl]. apply IndexedList_index_foldl_stable, IndexedList_index_add.
    + cbn in Hk. apply Hidx in Hk. exact Hk.
Qed.

End registry.

(** C3.  In a conversion, which starts with an empty registry, a target
    that was registered before gets the index it got then, and a target
    seen for the first time gets the next integer, counting from 1: one
    more than the number of distinct targets before it.  The targets
    http://x, http://y, http://x get 1, 2, 1. *)
Theorem link_indices (h : heap) (targets : list string) :
  ∃ idxs h',
    register_all targets (new_renderer h) = Ok idxs h' ∧
    length idxs = length targets ∧
    (∀ j k t, j < k → targets !! j = Some t → targets !! k = Some t →
       idxs !! k = idxs !! j) ∧
    (∀ k t, targets !! k = Some t → t ∉ take k targets →
       idxs !! k = Some (S (size (list_to_set (take k targets) : gset string)))) ∧
    register_all ["http://x"; "http://y"; "http://x"] (new_renderer h) =
      Ok [1; 2; 1] (upd_links (λ _, ["http://x"; "http://y"]) h).
Proof.
  destruct (register_all_spec targets (new_renderer h)) as (idxs & Hrun & Hlen & Hidx).
  cbn [new_renderer links upd_links] in Hidx.
  eexists idxs, _. split; [exact Hrun|]. split; [exact Hlen|].
  split; [|split].
  - intros j k t _ Hj Hk.
    destruct (Hidx j t Hj) as (p & Hp & ->).
    destruct (Hidx k t Hk) as (p' & Hp' & ->). congruence.
  - intros k t Hk Hnew.
    destruct (Hidx k t Hk) as (p & Hp & ->). do 2 f_equal.
    rewrite <-(take_drop_middle targets k t Hk) in Hp.
    rewrite foldl_app in Hp. cbn [foldl] in Hp.
    pose proof (foldl_add_NoDup (take k targets) [] (NoDup_nil_2)) as Hnd.
    pose proof (foldl_add_set (take k targets) []) as Hset.
    set (l := foldl openpyxl.IndexedList_add [] (take k targets)) in *.
    assert (t ∉ l) as Hout.
    { intros Hin. apply Hnew.
      apply (elem_of_list_to_set (C := gset string)) in Hin.
      rewrite Hset in Hin. cbn in Hin.
      rewrite (left_id_L ∅ (∪)) in Hin. by apply elem_of_list_to_set in Hin. }
    erewrite IndexedList_index_foldl_stable in Hp; last apply IndexedList_index_add.
    apply IndexedList_index_None in Hout. rewrite Hout in Hp. cbn in Hp.
    injection Hp as <-.
    rewrite <-(size_list_to_set (C := gset string) l Hnd), Hset. cbn.
    by rewrite (left_id_L ∅ (∪)).
  - reflexivity.
Qed.

(** ** The store *)

Lemma alter_snoc {A} (f : A → A) (l : list A) (x : A) :
  alter f (length l) (l ++ [x]) = l ++ [f x].
Proof. rewrite <-(Nat.add_0_r (length l)), alter_app_r. reflexivity. Qed.

Lemma replicate_snoc_cons {A} (n : nat) (x : A) (l : list A) :
  replicate n x ++ x :: l = x :: replicate n x ++ l.
Proof. induction n as [|n IH]; cbn; [done|]. by rewrite IH. Qed.

Lemma for_each_modify {A} (g : A → heap → heap) (xs : list A) : ∀ h,
  for_each xs (λ x, modify (g x)) h = Ok tt (foldl (λ h x, g x h) h xs).
Proof.
  induction xs as [|x xs IH]; intros h; cbn [for_each foldl]; [done|].
  unfold bind, modify at 1. apply IH.
Qed.

Lemma foldl_upd_style_lists {A} (F : A → list (list string) → list (list string))
    (xs : list A) : ∀ h,
  foldl (λ h x, upd_style_lists (F x) h) h xs =
    upd_style_lists (λ t, foldl (λ t x, F x t) t xs) h.
Proof.
  induction xs as [|x xs IH]; intros h; cbn [foldl]; [by destruct h|].
  rewrite IH. reflexivity.
Qed.

Lemma foldl_upd_marker_sets {A} (F : A → list (gset string) → list (gset string))
    (xs : list A) : ∀ h,
  foldl (λ h x, upd_marker_sets (F x) h) h xs =
    upd_marker_sets (λ t, foldl (λ t x, F x t) t xs) h.
Proof.
  induction xs as [|x xs IH]; intros h; cbn [foldl]; [by destruct h|].
  rewrite IH. reflexivity.
Qed.

(** ** BlockCollector *)

Lemma nest_run self style h :
  BlockCollector.nest self style h =
    Ok self (upd_style_lists
               (λ t, foldl (λ t e, alter (λ l, style :: l) (styles e) t) t
                           (BlockCollector.elements h self)) h).
Proof.
  unfold BlockCollector.nest, bind, gets at 1.
  rewrite (for_each_modify (λ e, upd_style_lists (alter (λ l, style :: l) (styles e)))).
  rewrite foldl_upd_style_lists. reflexivity.
Qed.

Lemma foldl_alter_length {A} (f : list A → list A) (es : list BlockElement) : ∀ t,
  length (foldl (λ t e, alter f (styles e) t) t es) = length t.
Proof.
  induction es as [|e es IH]; intros t; cbn [foldl]; [done|].
  by rewrite IH, length_alter.
Qed.

Lemma foldl_alter_lookup style (es : list BlockElement) : ∀ (t : list (list string)) a,
  a < length t →
  foldl (λ t e, alter (λ l, style :: l) (styles e) t) t es !!! a =
    replicate (occurrences a es) style ++ t !!! a.
Proof.
  unfold occurrences.
  induction es as [|e es IH]; intros t a Ha; cbn [foldl]; [done|].
  rewrite IH by (by rewrite length_alter).
  destruct (decide (styles e = a)) as [Heq|Hne].
  - rewrite filter_cons_True by done. rewrite Heq.
    rewrite list_lookup_total_alter_eq by done. cbn [length replicate].
    by rewrite replicate_snoc_cons.
  - rewrite filter_cons_False by done.
    by rewrite list_lookup_total_alter_ne.
Qed.

Lemma occurrences_absent (es : list BlockElement) a :
  a ∉ styles <$> es → occurrences a es = 0.
Proof.
  unfold occurrences. induction es as [|e es IH]; intros Hout; [done|].
  rewrite fmap_cons, not_elem_of_cons in Hout. destruct Hout as [Hne Hout].
  rewrite filter_cons_False by done. by apply IH.
Qed.

Lemma occurrences_distinct (es : list BlockElement) e :
  NoDup (styles <$> es) → e ∈ es → occurrences (styles e) es = 1.
Proof.
  induction es as [|e' es IH]; intros Hnd Hin; [by apply elem_of_nil in Hin|].
  rewrite fmap_cons in Hnd. apply NoDup_cons in Hnd as [Hout Hnd].
  unfold occurrences. apply elem_of_cons in Hin as [<-|Hin].
  - rewrite filter_cons_True by done. cbn [length]. f_equal.
    by apply occurrences_absent.
  - rewrite filter_cons_False; [by apply IH|].
    intros Heq. apply Hout. rewrite Heq. by apply list_elem_of_fmap_2.
Qed.

(** [nest] puts the tag in front of the style list of every element, once
    for every time the element occurs in the collector. *)
Lemma nest_spec self style h :
  ∃ h',
    BlockCollector.nest self style h = Ok self h' ∧
    block_collectors h' = block_collectors h ∧
    inline_collectors h' = inline_collectors h ∧
    marker_sets h' = marker_sets h ∧
    length (style_lists h') = length (style_lists h) ∧
    ∀ a, a < length (style_lists h) →
      get_styles h' a =
        replicate (occurrences a (BlockCollector.elements h self)) style
          ++ get_styles h a.
Proof.
  eexists. split; [apply nest_run|]. cbn. repeat split.
  - apply foldl_alter_length.
  - intros a Ha. unfold get_styles. cbn. by apply foldl_alter_lookup.
Qed.

(** C4, as amended.  In a BlockCollector where no element occurs twice,
    [nest] puts the tag in front of the style list of every element, so
    after [nest(B)] and then [nest(A)] every style list is A, B and then
    what it was, whatever appends and merges built the collector. *)
Theorem nest_nest_order (h : heap) (self : nat) (A B : string)
    (Hvalid : valid_styles h self) (Hdistinct : distinct_block h self) :
  ∃ h1 h2,
    BlockCollector.nest self B h = Ok self h1 ∧
    BlockCollector.nest self A h1 = Ok self h2 ∧
    BlockCollector.elements h2 self = BlockCollector.elements h self ∧
    ∀ e, e ∈ BlockCollector.elements h self →
      get_styles h1 (styles e) = B :: get_styles h (styles e) ∧
      get_styles h2 (styles e) = A :: B :: get_styles h (styles e).
Proof.
  destruct (nest_spec self B h) as (h1 & Hrun1 & Hb1 & _ & _ & Hlen1 & Hst1).
  destruct (nest_spec self A h1) as (h2 & Hrun2 & Hb2 & _ & _ & Hlen2 & Hst2).
  assert (BlockCollector.elements h1 self = BlockCollector.elements h self) as He1.
  { unfold BlockCollector.elements. by rewrite Hb1. }
  exists h1, h2. split; [done|]. split; [done|]. split.
  { unfold BlockCollector.elements. by rewrite Hb2, Hb1. }
  intros e He.
  assert (styles e < length (style_lists h)) as Ha.
  { unfold valid_styles in Hvalid. rewrite Forall_forall in Hvalid. by apply Hvalid. }
  rewrite Hst2 by (by rewrite Hlen1). rewrite He1, Hst1 by done.
  rewrite (occurrences_distinct _ e Hdistinct He). done.
Qed.

Lemma nest_nest_order_witness :
  ∃ h1 h2,
    BlockCollector.nest 0 "A" (state_of (two_blocks empty_heap)) = Ok 0 h1 ∧
    BlockCollector.nest 0 "quote" h1 = Ok 0 h2 ∧
    BlockCollector.elements h2 0 =
      BlockCollector.elements (state_of (two_blocks empty_heap)) 0 ∧
    ∀ e, e ∈ BlockCollector.elements (state_of (two_blocks empty_heap)) 0 →
      get_styles h1 (styles e) =
        "A" :: get_styles (state_of (two_blocks empty_heap)) (styles e) ∧
      get_styles h2 (styles e) =
        "quote" :: "A" :: get_styles (state_of (two_blocks empty_heap)) (styles e).
Proof.
  apply (nest_nest_order (state_of (two_blocks empty_heap)) 0 "quote" "A").
  - unfold valid_styles. vm_compute. repeat constructor.
  - unfold distinct_block. apply (bool_decide_unpack _). vm_compute. exact I.
Defined.

(** C4, as stated, fails for a collector that holds an element twice: a
    BlockCollector merged twice into another one gives elements whose
    style list gets every tag twice, A, A, B, B. *)
Lemma nest_nest_merged_twice :
  value_of (merged_twice empty_heap) = Some 1 ∧
  view_block (state_of (merged_twice empty_heap)) 1 =
    [([("x", ∅)], ["A"; "A"; "B"; "B"]); ([("x", ∅)], ["A"; "A"; "B"; "B"])] ∧
  ¬ (∀ e, e ∈ BlockCollector.elements (state_of (merged_twice empty_heap)) 1 →
       ∃ rest,
         get_styles (state_of (merged_twice empty_heap)) (styles e) =
           "A" :: "B" :: rest).
Proof.
  split; [vm_compute; reflexivity|]. split; [vm_compute; reflexivity|].
  intros H. destruct (H (mkBlockElement 0 0)) as [rest Hrest].
  - vm_compute. left.
  - vm_compute in Hrest. discriminate Hrest.
Qed.

(** ** Frames: what a computation leaves as it was *)

Section agree.
Context {A : Type} `{Inhabited A}.
Implicit Types t : list A.

Lemma agree_refl t : agree t t.
Proof. split; [lia|done]. Qed.

Lemma agree_trans t1 t2 t3 : agree t1 t2 → agree t2 t3 → agree t1 t3.
Proof.
  intros [Hl1 H1] [Hl2 H2]. split; [lia|].
  intros a Ha. rewrite H2 by lia. by apply H1.
Qed.

Lemma agree_app t t' : agree t (t ++ t').
Proof.
  split; [rewrite length_app; lia|].
  intros a Ha. by apply lookup_total_app_l.
Qed.

Lemma total_lookup_valid t a : t !!! a ≠ inhabitant → a < length t.
Proof.
  intros Hne. destruct (decide (a < length t)) as [|Hge]; [done|].
  exfalso. apply Hne. rewrite list_lookup_total_alt.
  by rewrite lookup_ge_None_2 by lia.
Qed.

Lemma alter_as_insert t f a : alter f a t = <[a := f (t !!! a)]> t.
Proof.
  apply list_eq. intros k. rewrite list_lookup_alter, list_lookup_insert.
  destruct (decide (a = k)) as [->|]; [|by rewrite decide_False by tauto].
  destruct (decide (k < length t)) as [Hk|Hk].
  - rewrite decide_True by done.
    destruct (lookup_lt_is_Some_2 t k Hk) as [x Hx].
    by rewrite (list_lookup_total_correct _ _ _ Hx), Hx.
  - rewrite decide_False by tauto. by rewrite lookup_ge_None_2 by lia.
Qed.

End agree.

Lemma frame_trans h1 h2 h3 : frame h1 h2 → frame h2 h3 → frame h1 h3.
Proof.
  intros (?&?&?) (?&?&?). repeat split; try (eapply agree_trans; eassumption).
Qed.

(** ** The constructors and the merge, as changes of the store *)

Ltac store :=
  unfold upd_marker_sets, upd_style_lists, upd_inline_collectors,
    upd_block_collectors, upd_collectors, upd_links;
  cbn [marker_sets style_lists inline_collectors block_collectors collectors links].

Ltac prims :=
  unfold ret, gets, modify, raise, set_block, set_inline, new_collector,
    new_set, new_list, new_inline_collector, new_block_collector;
  store.

Ltac step := unfold bind at 1; prims.

Lemma InlineCollector_init_run t h :
  InlineCollector.__init__ (Some t) h =
    Ok (length (inline_collectors h))
       (Heap (marker_sets h ++ [∅]) (style_lists h)
             (inline_collectors h ++ [[mkInlineElement t (length (marker_sets h))]])
             (block_collectors h) (collectors h) (links h)).
Proof.
  unfold InlineCollector.__init__, InlineCollector.append, new_inline_collector,
    new_set, bind, modify, ret. store.
  by rewrite alter_snoc.
Qed.

Lemma BlockCollector_init_run c h :
  BlockCollector.__init__ (Some c) h =
    Ok (length (block_collectors h))
       (Heap (marker_sets h) (style_lists h ++ [[]]) (inline_collectors h)
             (block_collectors h ++ [[mkBlockElement c (length (style_lists h))]])
             (collectors h) (links h)).
Proof.
  unfold BlockCollector.__init__, BlockCollector.append, new_block_collector,
    new_list, bind, modify, ret. store.
  by rewrite alter_snoc.
Qed.

Lemma BlockCollector_init_None_run h :
  BlockCollector.__init__ None h =
    Ok (length (block_collectors h))
       (Heap (marker_sets h) (style_lists h) (inline_collectors h)
             (block_collectors h ++ [[]]) (collectors h) (links h)).
Proof. reflexivity. Qed.

Lemma BlockCollector_iadd_run self other h :
  BlockCollector.__iadd__ self other h =
    Ok self
       (Heap (marker_sets h) (style_lists h) (inline_collectors h)
             (alter (λ l, l ++ BlockCollector.elements h other) self (block_collectors h))
             (collectors h) (links h)).
Proof. reflexivity. Qed.

Lemma InlineCollector_iadd_run self bucket h :
  InlineCollector.__iadd__ self bucket h =
    Ok self
       (Heap (marker_sets h) (style_lists h)
             (alter (λ l, l ++ InlineCollector.elements h bucket) self (inline_collectors h))
             (block_collectors h) (collectors h) (links h)).
Proof. reflexivity. Qed.

Lemma get_collector_valid h self :
  get_collector h self ≠ mkCollector None None → self < length (collectors h).
Proof. exact (total_lookup_valid (collectors h) self). Qed.

(** ** Collector: appending a BlockCollector *)

Lemma get_collector_alter h f self ms sl ic bc ls :
  self < length (collectors h) →
  get_collector (Heap ms sl ic bc (alter f self (collectors h)) ls) self =
    f (get_collector h self).
Proof. intros Hself. unfold get_collector. cbn. by apply list_lookup_total_alter_eq. Qed.

(** No block and no inline pending: the blocks go into a new, empty
    BlockCollector. *)
Lemma add_block_first h self bc :
  get_collector h self = mkCollector None None →
  self < length (collectors h) →
  bc < length (block_collectors h) →
  Collector._add_block self bc h =
    Ok tt (Heap (marker_sets h) (style_lists h) (inline_collectors h)
                (block_collectors h ++ [BlockCollector.elements h bc])
                (<[self := mkCollector None (Some (length (block_collectors h)))]>
                   (collectors h))
                (links h)).
Proof.
  intros Hc Hself Hbc. unfold Collector._add_block.
  step. rewrite Hc. cbn [block inline].
  step. step. rewrite BlockCollector_init_None_run. step. step.
  rewrite get_collector_alter by done. rewrite Hc. cbn [block inline].
  rewrite BlockCollector_iadd_run. store.
  f_equal. f_equal.
  - unfold BlockCollector.elements. cbn.
    rewrite lookup_total_app_l by done. by rewrite alter_snoc.
  - rewrite !alter_as_insert. rewrite list_lookup_total_insert_eq by done.
    rewrite list_insert_insert_eq. unfold get_collector in Hc. by rewrite Hc.
Qed.

(** An inline pending and no block: the inline becomes the one element of
    a new BlockCollector, which the blocks are merged into. *)
Lemma add_block_promote h self bc i :
  get_collector h self = mkCollector (Some i) None →
  bc < length (block_collectors h) →
  Collector._add_block self bc h =
    Ok tt (Heap (marker_sets h) (style_lists h ++ [[]]) (inline_collectors h)
                (block_collectors h ++
                   [mkBlockElement i (length (style_lists h))
                      :: BlockCollector.elements h bc])
                (<[self := mkCollector None (Some (length (block_collectors h)))]>
                   (collectors h))
                (links h)).
Proof.
  intros Hc Hbc.
  assert (self < length (collectors h)) as Hself.
  { apply get_collector_valid. by rewrite Hc. }
  unfold Collector._add_block.
  step. rewrite Hc. cbn [block inline].
  step. step. rewrite BlockCollector_init_run. step. step. step.
  unfold get_collector at 1. cbn [collectors].
  rewrite !list_lookup_total_alter_eq by (by rewrite ?length_alter).
  cbn [block inline]. cbn beta.
  rewrite BlockCollector_iadd_run. store.
  f_equal. f_equal.
  - unfold BlockCollector.elements. cbn.
    rewrite lookup_total_app_l by done. by rewrite alter_snoc.
  - rewrite !alter_as_insert.
    rewrite !list_lookup_total_insert_eq by (by rewrite ?length_insert).
    rewrite !list_insert_insert_eq. done.
Qed.

(** A block pending: the blocks are merged into it. *)
Lemma add_block_pending h self bc b :
  block (get_collector h self) = Some b →
  Collector._add_block self bc h =
    Ok tt (Heap (marker_sets h) (style_lists h) (inline_collectors h)
                (alter (λ l, l ++ BlockCollector.elements h bc) b (block_collectors h))
                (collectors h) (links h)).
Proof.
  intros Hb.
  assert (self < length (collectors h)) as Hself.
  { apply get_collector_valid. intros Hc. by rewrite Hc in Hb. }
  unfold Collector._add_block.
  step. rewrite Hb. step. step. rewrite Hb. step.
  rewrite BlockCollector_iadd_run. store.
  f_equal. f_equal.
  rewrite alter_as_insert. apply list_insert_id.
  unfold get_collector in Hb.
  destruct (lookup_lt_is_Some_2 _ _ Hself) as [c Hc].
  rewrite (list_lookup_total_correct _ _ _ Hc) in Hb |- *.
  rewrite Hc. f_equal. destruct c as [ci cb]. cbn in *. by rewrite Hb.
Qed.

Lemma frame_new_style_list h l bc cs :
  frame h (Heap (marker_sets h) (style_lists h ++ l) (inline_collectors h) bc cs (links h)).
Proof. split; [apply agree_refl|]. split; [apply agree_app|apply agree_refl]. Qed.

Lemma frame_blocks_collectors h bc cs :
  frame h (Heap (marker_sets h) (style_lists h) (inline_collectors h) bc cs (links h)).
Proof. repeat split; try apply agree_refl. Qed.

(** C1.  Appending a BlockCollector to a collector that has an inline
    pending and no block: the inline becomes the one element, with no
    style, of a new BlockCollector, the pending inline is cleared, and the
    appended blocks come after that element.  With a block pending, the
    appended blocks are merged into it, after its own.  Nothing else of
    the document changes. *)
Theorem append_block_collector (h : heap) (self bc : nat)
    (Hbc : bc < length (block_collectors h)) :
  (∀ i, get_collector h self = mkCollector (Some i) None →
     ∃ h' b s,
       Collector.__iadd__ self (VBlockCollector bc) h = Ok self h' ∧
       get_collector h' self = mkCollector None (Some b) ∧
       BlockCollector.elements h' b =
         mkBlockElement i s :: BlockCollector.elements h bc ∧
       get_styles h' s = [] ∧
       length (block_collectors h) ≤ b ∧
       length (style_lists h) ≤ s ∧
       frame h h') ∧
  (∀ b, block (get_collector h self) = Some b →
     b < length (block_collectors h) →
     ∃ h',
       Collector.__iadd__ self (VBlockCollector bc) h = Ok self h' ∧
       get_collector h' self = get_collector h self ∧
       BlockCollector.elements h' b =
         BlockCollector.elements h b ++ BlockCollector.elements h bc ∧
       frame h h').
Proof.
  split.
  - intros i Hc.
    assert (self < length (collectors h)) as Hself.
    { apply get_collector_valid. by rewrite Hc. }
    eexists _, (length (block_collectors h)), (length (style_lists h)).
    split.
    { unfold Collector.__iadd__, bind.
      rewrite (add_block_promote h self bc i Hc Hbc). reflexivity. }
    split; [|split; [|split; [|split; [|split]]]].
    + unfold get_collector. cbn. by apply list_lookup_total_insert_eq.
    + unfold BlockCollector.elements. cbn. by apply list_lookup_total_middle.
    + unfold get_styles. cbn. by apply list_lookup_total_middle.
    + done.
    + done.
    + apply frame_new_style_list.
  - intros b Hb Hvalid. eexists. split.
    { unfold Collector.__iadd__, bind.
      rewrite (add_block_pending h self bc b Hb). reflexivity. }
    split; [done|]. split.
    + unfold BlockCollector.elements at 1. cbn.
      by rewrite list_lookup_total_alter_eq.
    + apply frame_blocks_collectors.
Qed.

Lemma append_block_collector_witness :
  (∃ h' b s,
     Collector.__iadd__ 0 (VBlockCollector 0) (state_of (inline_pending empty_heap))
       = Ok 0 h' ∧
     get_collector h' 0 = mkCollector None (Some b) ∧
     BlockCollector.elements h' b =
       mkBlockElement 0 s
         :: BlockCollector.elements (state_of (inline_pending empty_heap)) 0 ∧
     get_styles h' s = [] ∧
     length (block_collectors (state_of (inline_pending empty_heap))) ≤ b ∧
     length (style_lists (state_of (inline_pending empty_heap))) ≤ s ∧
     frame (state_of (inline_pending empty_heap)) h') ∧
  (∃ h',
     Collector.__iadd__ 0 (VBlockCollector 2) (state_of (block_pending empty_heap))
       = Ok 0 h' ∧
     get_collector h' 0 = get_collector (state_of (block_pending empty_heap)) 0 ∧
     BlockCollector.elements h' 1 =
       BlockCollector.elements (state_of (block_pending empty_heap)) 1
         ++ BlockCollector.elements (state_of (block_pending empty_heap)) 2 ∧
     frame (state_of (block_pending empty_heap)) h').
Proof.
  split.
  - apply (append_block_collector (state_of (inline_pending empty_heap)) 0 0).
    + vm_compute. lia.
    + vm_compute. reflexivity.
  - apply (append_block_collector (state_of (block_pending empty_heap)) 0 2).
    + vm_compute. lia.
    + vm_compute. reflexivity.
    + vm_compute. lia.
Defined.

(** C5.  Appending None to a collector changes nothing, and appending an
    object of a class that is none of BlockCollector, InlineCollector and
    Collector raises a RuntimeError at once, the store being as it was. *)
Theorem append_none_or_unexpected (h : heap) (self : nat) (class_name repr : string) :
  Collector.__iadd__ self VNone h = Ok self h ∧
  Collector.__iadd__ self (VOther class_name repr) h =
    Raise (RuntimeError ("Unexpected type " +:+ class_name +:+
                         " appended to Collector: " +:+ repr)) h.
Proof. split; reflexivity. Qed.

(** ** Views under a frame *)

Lemma valid_inline_frame h h' i : frame h h' → valid_inline h i → valid_inline h' i.
Proof.
  intros ([Hlm _] & _ & [Hli Hi]) [Hvalid Hmarkers]. split; [lia|].
  unfold InlineCollector.elements in *. rewrite Hi by done.
  eapply Forall_impl; [exact Hmarkers|]. cbn. intros e He. lia.
Qed.

Lemma view_inline_frame h h' i :
  frame h h' → valid_inline h i → view_inline h' i = view_inline h i.
Proof.
  intros ([_ Hm] & _ & [_ Hi]) [Hvalid Hmarkers].
  unfold view_inline, InlineCollector.elements in *. rewrite Hi by done.
  apply Forall_fmap_ext. eapply Forall_impl; [exact Hmarkers|].
  cbn. intros e He. unfold get_markers. by rewrite Hm.
Qed.

Lemma valid_element_frame h h' e : frame h h' → valid_element h e → valid_element h' e.
Proof.
  intros Hframe [Hs Hc]. split; [|by eapply valid_inline_frame].
  destruct Hframe as (_ & [Hl _] & _). lia.
Qed.

Lemma view_element_frame h h' e :
  frame h h' → valid_element h e → view_element h' e = view_element h e.
Proof.
  intros Hframe [Hs Hc]. unfold view_element.
  rewrite (view_inline_frame h h') by done.
  destruct Hframe as (_ & [_ Hl] & _). unfold get_styles. by rewrite Hl.
Qed.

Lemma apply_marker_run self marker h :
  InlineCollector.apply_marker self marker h =
    Ok self (upd_marker_sets
               (λ t, foldl (λ t e, alter (λ s, s ∪ {[marker]}) (markers e) t) t
                           (InlineCollector.elements h self)) h).
Proof.
  unfold InlineCollector.apply_marker, bind, gets at 1.
  rewrite (for_each_modify
             (λ e, upd_marker_sets (alter (λ s, s ∪ {[marker]}) (markers e)))).
  rewrite foldl_upd_marker_sets. reflexivity.
Qed.

(** ** [terminate] *)

Lemma lookup_total_app_len {A} `{Inhabited A} (l l' : list A) :
  (l ++ l') !!! length l = l' !!! 0.
Proof. rewrite lookup_total_app_r by done. by rewrite Nat.sub_diag. Qed.

Lemma lookup_total_app_plus {A} `{Inhabited A} (l l' : list A) k :
  (l ++ l') !!! (length l + k) = l' !!! k.
Proof. rewrite lookup_total_app_r by lia. f_equal. lia. Qed.

Lemma alter_app_len {A} (f : A → A) (l l' : list A) :
  alter f (length l) (l ++ l') = l ++ alter f 0 l'.
Proof. rewrite <-(Nat.add_0_r (length l)). apply alter_app_r. Qed.

Ltac norm :=
  repeat (progress (
    unfold InlineCollector.elements, BlockCollector.elements; store;
    rewrite <-?app_assoc; rewrite ?length_app; cbn [length app];
    rewrite ?lookup_total_app_len, ?lookup_total_app_plus, ?alter_app_len,
      ?alter_app_r;
    cbn [lookup_total list_lookup_total alter list_alter foldl fmap list_fmap
         markers styles content text])).

(** One turn of the loop of [terminate]: a new block, whose content is the
    two runs of a reference and whose one style is link, at the end of the
    pending block of the collector. *)
Lemma terminate_link_run h collector cb idx link :
  block (get_collector h collector) = Some cb →
  cb < length (block_collectors h) →
  let p := length (inline_collectors h) in
  let m := length (marker_sets h) in
  let e := mkBlockElement p (length (style_lists h)) in
  let e1 := mkInlineElement ("[" +:+ pretty idx +:+ "] ") m in
  let e2 := mkInlineElement link (m + 1) in
  ExcelRenderer.terminate_link collector (idx, link) h =
    Ok tt (Heap (marker_sets h ++ [∅; {["l"]}])
                (style_lists h ++ [["link"]])
                (inline_collectors h ++ [[e1; e2]; [e2]])
                (alter (λ l, l ++ [e]) cb (block_collectors h) ++ [[e]])
                (collectors h) (links h)).
Proof.
  intros Hcb Hvalid p m e e1 e2. unfold ExcelRenderer.terminate_link.
  unfold bind at 1. rewrite InlineCollector_init_run. norm.
  unfold bind at 1. rewrite InlineCollector_init_run. norm.
  unfold bind at 1. rewrite apply_marker_run. norm.
  unfold bind at 1. rewrite InlineCollector_iadd_run. norm.
  unfold bind at 1. rewrite BlockCollector_init_run. norm.
  unfold bind at 1. rewrite nest_run. norm.
  unfold bind at 1, Collector.__iadd__, bind at 1.
  rewrite (add_block_pending _ collector _ cb) by exact Hcb. norm.
  unfold ret. rewrite (left_id_L ∅ (∪)), alter_app_l by done. reflexivity.
Qed.

Lemma length_enumerate {A} (xs : list A) : ∀ k, length (enumerate k xs) = length xs.
Proof. induction xs as [|x xs IH]; intros k; cbn; [done|]. by rewrite IH. Qed.

Lemma terminate_loop ls : ∀ k h collector cb,
  block (get_collector h collector) = Some cb →
  cb < length (block_collectors h) →
  ∃ h' es,
    for_each (enumerate k ls) (ExcelRenderer.terminate_link collector) h = Ok tt h' ∧
    collectors h' = collectors h ∧
    links h' = links h ∧
    BlockCollector.elements h' cb = BlockCollector.elements h cb ++ es ∧
    view_element h' <$> es = link_row <$> enumerate k ls ∧
    frame h h'.
Proof.
  induction ls as [|link ls IH]; intros k h collector cb Hcb Hvalid.
  - exists h, []. cbn. rewrite app_nil_r. repeat split; try done; apply agree_refl.
  - cbn [enumerate for_each]. unfold bind at 1.
    rewrite (terminate_link_run h collector cb k link Hcb Hvalid). cbn zeta.
    remember (mkBlockElement (length (inline_collectors h)) (length (style_lists h)))
      as e eqn:Hedef.
    match goal with |- context [for_each _ _ ?h1] => remember h1 as h1' eqn:Hh1 end.
    assert (block (get_collector h1' collector) = Some cb) as Hcb1.
    { subst h1'. exact Hcb. }
    assert (cb < length (block_collectors h1')) as Hvalid1.
    { subst h1'. cbn. rewrite length_app, length_alter. lia. }
    assert (valid_element h1' e) as He.
    { subst h1' e. split; [|split]; cbn.
      - rewrite length_app. cbn. lia.
      - rewrite length_app. cbn. lia.
      - norm. rewrite !Forall_cons, Forall_nil. cbn. lia. }
    destruct (IH (S k) h1' collector cb Hcb1 Hvalid1)
      as (h' & es & Hrun & Hcs & Hls & Hes & Hview & Hframe).
    exists h', (e :: es). split; [exact Hrun|].
    split; [by rewrite Hcs, Hh1|]. split; [by rewrite Hls, Hh1|]. split; [|split].
    + rewrite Hes. subst h1'. unfold BlockCollector.elements at 1. cbn.
      rewrite lookup_total_app_l by (by rewrite length_alter).
      rewrite list_lookup_total_alter_eq by done.
      by rewrite <-app_assoc.
    + rewrite !fmap_cons, Hview. f_equal.
      rewrite (view_element_frame h1' h' e Hframe He).
      subst h1' e. unfold view_element, view_inline, get_styles, get_markers.
      norm. cbn. reflexivity.
    + eapply frame_trans; [|exact Hframe].
      subst h1'. repeat split; cbn; try apply agree_app; rewrite ?length_app; try lia;
        intros a Ha; by apply lookup_total_app_l.
Qed.

Lemma terminate_empty_run h :
  links h = [] →
  ExcelRenderer.terminate h =
    Ok (length (collectors h))
       (Heap (marker_sets h) (style_lists h) (inline_collectors h)
             (block_collectors h) (collectors h ++ [mkCollector None None]) (links h)).
Proof.
  intros Hls. unfold ExcelRenderer.terminate, Collector.__init__.
  step. step. rewrite Hls. cbn [length].
  rewrite decide_False by lia. step. reflexivity.
Qed.

Lemma terminate_links_run h :
  links h ≠ [] →
  ∃ h' cb,
    ExcelRenderer.terminate h = Ok (length (collectors h)) h' ∧
    get_collector h' (length (collectors h)) = mkCollector None (Some cb) ∧
    view_block h' cb = blank_row :: (link_row <$> enumerate 1 (links h)) ∧
    links h' = [] ∧
    frame h h'.
Proof.
  intros Hls. unfold ExcelRenderer.terminate, Collector.__init__.
  step. step. rewrite decide_True by (destruct (links h); [done|cbn; lia]).
  step. unfold bind at 1. rewrite InlineCollector_init_run. norm.
  unfold bind at 1. rewrite BlockCollector_init_run. norm.
  unfold bind at 1, Collector.__iadd__, bind at 1.
  rewrite add_block_first; cycle 1.
  { unfold get_collector. norm. reflexivity. }
  { cbn. rewrite length_app. cbn. lia. }
  { cbn. rewrite length_app. cbn. lia. }
  norm. unfold ret at 1. unfold bind at 1.
  remember (mkBlockElement (length (inline_collectors h)) (length (style_lists h)))
    as e eqn:Hedef.
  match goal with |- context [for_each _ _ ?h1] => remember h1 as h1' eqn:Hh1 end.
  assert (get_collector h1' (length (collectors h)) =
            mkCollector None (Some (length (block_collectors h) + 1))) as Hc1.
  { subst h1'. unfold get_collector. cbn.
    apply list_lookup_total_insert_eq. rewrite length_app. cbn. lia. }
  assert (length (block_collectors h) + 1 < length (block_collectors h1')) as Hvalid1.
  { subst h1'. cbn. rewrite length_app. cbn. lia. }
  assert (valid_element h1' e) as He.
  { subst h1' e. split; [|split]; cbn.
    - rewrite length_app. cbn. lia.
    - rewrite length_app. cbn. lia.
    - norm. rewrite !Forall_cons, Forall_nil. cbn. lia. }
  destruct (terminate_loop (links h) 1 h1' (length (collectors h))
              (length (block_collectors h) + 1))
    as (h' & es & Hrun & Hcs & Hlinks & Hes & Hview & Hframe).
  { by rewrite Hc1. }
  { exact Hvalid1. }
  rewrite Hrun.
  eexists _, (length (block_collectors h) + 1). split; [reflexivity|].
  split; [|split; [|split]].
  - unfold get_collector in *. cbn. by rewrite Hcs.
  - unfold view_block, BlockCollector.elements in *. cbn. rewrite Hes.
    assert ((block_collectors h1' !!! (length (block_collectors h) + 1)) = [e]) as ->.
    { subst h1'. by norm. }
    rewrite fmap_app, fmap_cons, fmap_nil. cbn [app].
    change (view_element h' e :: (view_element h' <$> es) =
            blank_row :: (link_row <$> enumerate 1 (links h))).
    rewrite Hview. f_equal.
    rewrite (view_element_frame h1' h' e Hframe He).
    subst h1' e. unfold view_element, view_inline, get_styles, get_markers.
    by norm.
  - done.
  - eapply frame_trans with (h2 := h').
    + eapply frame_trans; [|exact Hframe].
      subst h1'. repeat split; cbn; try apply agree_app; rewrite ?length_app; try lia;
        intros a Ha; by apply lookup_total_app_l.
    + repeat split; cbn; try lia; done.
Qed.

(** C2.  A flush of the registry: with no link it emits no block; with N
    links it emits 1 + N blocks, a blank one and then, in the order of the
    indices, one block per link with the style link, whose content is the
    run "[index] " with no marker and the target with the marker l.  It
    leaves the registry empty, so that a second flush emits no block. *)
Theorem terminate_flushes (h : heap) :
  ∃ c h',
    ExcelRenderer.terminate h = Ok c h' ∧
    inline (get_collector h' c) = None ∧
    emitted h' c = reference_rows (links h) ∧
    length (emitted h' c) =
      match links h with [] => 0 | _ :: _ => 1 + length (links h) end ∧
    links h' = [] ∧
    frame h h' ∧
    ∃ c2 h2, ExcelRenderer.terminate h' = Ok c2 h2 ∧ emitted h2 c2 = [].
Proof.
  assert (∀ h0, links h0 = [] →
            ∃ c h', ExcelRenderer.terminate h0 = Ok c h' ∧
                    get_collector h' c = mkCollector None None ∧
                    links h' = [] ∧ frame h0 h') as Hempty.
  { intros h0 H0. eexists _, _. split; [by apply terminate_empty_run|].
    split; [|split].
    - unfold get_collector. cbn. by apply list_lookup_total_middle.
    - done.
    - apply frame_blocks_collectors. }
  assert (∃ c h', ExcelRenderer.terminate h = Ok c h' ∧
                  inline (get_collector h' c) = None ∧
                  emitted h' c = reference_rows (links h) ∧
                  links h' = [] ∧ frame h h') as (c & h' & Hrun & Hin & Hem & Hls & Hfr).
  { destruct (links h) as [|l ls] eqn:Hlinks.
    - destruct (Hempty h Hlinks) as (c & h' & Hrun & Hc & Hls & Hfr).
      exists c, h'. unfold emitted. rewrite Hc. done.
    - destruct (terminate_links_run h) as (h' & cb & Hrun & Hc & Hview & Hls & Hfr).
      { by rewrite Hlinks. }
      eexists _, h'. split; [exact Hrun|]. unfold emitted. rewrite Hc. cbn.
      rewrite Hview, Hlinks. done. }
  exists c, h'. split; [exact Hrun|]. split; [exact Hin|]. split; [exact Hem|].
  split; [|split; [exact Hls|split; [exact Hfr|]]].
  - rewrite Hem. unfold reference_rows. destruct (links h) as [|l ls]; [done|].
    cbn [length]. by rewrite length_fmap, length_enumerate.
  - destruct (Hempty h' Hls) as (c2 & h2 & Hrun2 & Hc2 & _).
    exists c2, h2. split; [exact Hrun2|]. unfold emitted. by rewrite Hc2.
Qed.

(** ** The block hooks *)

(** A hook on a placeholder with an inline pending: the inline becomes the
    one block of a new BlockCollector, whose one style is the tag of the
    hook. *)
Lemma nested_block_inline_run h bucket i style :
  inline (get_collector h bucket) = Some i →
  ExcelRenderer.nested_block bucket style h =
    Ok (length (block_collectors h))
       (Heap (marker_sets h) (style_lists h ++ [[style]]) (inline_collectors h)
             (block_collectors h ++ [[mkBlockElement i (length (style_lists h))]])
             (collectors h) (links h)).
Proof.
  intros Hi. unfold ExcelRenderer.nested_block, ExcelRenderer._get_block.
  step. step. rewrite Hi. step. rewrite BlockCollector_init_run. norm.
  unfold ret. rewrite nest_run. by norm.
Qed.

(** C7, as amended.  For a paragraph, whose text is an inline pending in
    its placeholder, the hook returns one block, with that inline as its
    content and the one style paragraph, which [create_style] resolves to
    no font, no alignment and no fill. *)
Theorem paragraph_block (h : heap) (text i : nat)
    (Hinline : inline (get_collector h text) = Some i) :
  ∃ b s h',
    ExcelRenderer.paragraph text h = Ok b h' ∧
    BlockCollector.elements h' b = [mkBlockElement i s] ∧
    get_styles h' s = ["paragraph"] ∧
    ExcelCollectorRenderer.create_style (get_styles h' s) = (None, None, None) ∧
    frame h h'.
Proof.
  eexists _, (length (style_lists h)), _.
  split; [by apply nested_block_inline_run|].
  assert (∀ bc cs l, get_styles (Heap (marker_sets h) (style_lists h ++ [l])
                                      (inline_collectors h) bc cs (links h))
                                (length (style_lists h)) = l) as Hs.
  { intros bc cs l. unfold get_styles. cbn. by apply list_lookup_total_middle. }
  split; [|split; [|split]].
  - unfold BlockCollector.elements. cbn. by apply list_lookup_total_middle.
  - apply Hs.
  - rewrite Hs. reflexivity.
  - apply frame_new_style_list.
Qed.

Lemma paragraph_block_witness :
  ∃ b s h',
    ExcelRenderer.paragraph 0 (state_of (inline_pending empty_heap)) = Ok b h' ∧
    BlockCollector.elements h' b = [mkBlockElement 0 s] ∧
    get_styles h' s = ["paragraph"] ∧
    ExcelCollectorRenderer.create_style (get_styles h' s) = (None, None, None) ∧
    frame (state_of (inline_pending empty_heap)) h'.
Proof.
  apply (paragraph_block (state_of (inline_pending empty_heap)) 0 0).
  vm_compute. reflexivity.
Defined.

(** C7, as stated, fails: in the document of a title and the paragraph
    Hello **world**. the second block has the one style paragraph, and not
    an empty list of styles. *)
Lemma title_hello_world_paragraph_style :
  value_of (title_hello_world empty_heap) = Some 0 ∧
  emitted (state_of (title_hello_world empty_heap)) 0 =
    [([("Title", ∅)], ["h1"]);
     ([("Hello ", ∅); ("world", {["i"; "b"]}); (".", ∅)], ["paragraph"])] ∧
  snd <$> emitted (state_of (title_hello_world empty_heap)) 0 !! 1 ≠ Some [].
Proof.
  split; [vm_compute; reflexivity|]. split; [vm_compute; reflexivity|].
  vm_compute. discriminate.
Qed.

(** ** Collector: appending an InlineCollector *)

Lemma alter_same_collector (cs : list CollectorObj) f self :
  f (cs !!! self) = cs !!! self → alter f self cs = cs.
Proof.
  intros Hf. rewrite alter_as_insert, Hf.
  destruct (decide (self < length cs)) as [Hself|Hself].
  - apply list_insert_id.
    destruct (lookup_lt_is_Some_2 _ _ Hself) as [c Hc].
    by rewrite (list_lookup_total_correct _ _ _ Hc).
  - apply list_insert_ge. lia.
Qed.

Lemma add_inline_first h self i :
  inline (get_collector h self) = None →
  Collector._add_inline self i h =
    Ok tt (Heap (marker_sets h) (style_lists h) (inline_collectors h)
                (block_collectors h)
                (alter (λ c, mkCollector (Some i) (block c)) self (collectors h))
                (links h)).
Proof.
  intros Hi. unfold Collector._add_inline. step. rewrite Hi. by prims.
Qed.

Lemma add_inline_pending h self i j :
  inline (get_collector h self) = Some i →
  Collector._add_inline self j h =
    Ok tt (Heap (marker_sets h) (style_lists h)
                (alter (λ l, l ++ InlineCollector.elements h j) i (inline_collectors h))
                (block_collectors h) (collectors h) (links h)).
Proof.
  intros Hi. unfold Collector._add_inline. step. rewrite Hi. step.
  rewrite InlineCollector_iadd_run. store. f_equal. f_equal.
  apply alter_same_collector. unfold get_collector in Hi.
  destruct (collectors h !!! self) as [ci cb]. cbn in *. by rewrite Hi.
Qed.

(** ** The calls of the Markdown processor for plain paragraphs *)

Lemma inline_chunk_first h o chunk :
  inline (get_collector h o) = None →
  inline_chunk o chunk h =
    Ok tt (Heap (marker_sets h ++ [∅]) (style_lists h)
                (inline_collectors h ++ [[mkInlineElement chunk (length (marker_sets h))]])
                (block_collectors h)
                (alter (λ c, mkCollector (Some (length (inline_collectors h))) (block c))
                       o (collectors h))
                (links h)).
Proof.
  intros Hi. unfold inline_chunk, ExcelRenderer.text.
  unfold bind at 1. rewrite InlineCollector_init_run.
  unfold bind at 1, Collector.__iadd__, bind at 1.
  rewrite add_inline_first by exact Hi. reflexivity.
Qed.

Lemma inline_chunk_next h o i chunk :
  inline (get_collector h o) = Some i →
  i < length (inline_collectors h) →
  inline_chunk o chunk h =
    Ok tt (Heap (marker_sets h ++ [∅]) (style_lists h)
                (alter (λ l, l ++ [mkInlineElement chunk (length (marker_sets h))]) i
                       (inline_collectors h)
                   ++ [[mkInlineElement chunk (length (marker_sets h))]])
                (block_collectors h) (collectors h) (links h)).
Proof.
  intros Hi Hvalid. unfold inline_chunk, ExcelRenderer.text.
  unfold bind at 1. rewrite InlineCollector_init_run.
  unfold bind at 1, Collector.__iadd__, bind at 1.
  rewrite (add_inline_pending _ o i) by exact Hi. norm.
  unfold ret. by rewrite alter_app_l.
Qed.

Lemma inline_chunks_loop rest : ∀ h o i,
  inline (get_collector h o) = Some i →
  valid_inline h i →
  ∃ h',
    for_each rest (inline_chunk o) h = Ok tt h' ∧
    collectors h' = collectors h ∧
    block_collectors h' = block_collectors h ∧
    style_lists h' = style_lists h ∧
    links h' = links h ∧
    agree (marker_sets h) (marker_sets h') ∧
    length (inline_collectors h) ≤ length (inline_collectors h') ∧
    (∀ a, a < length (inline_collectors h) → a ≠ i →
       inline_collectors h' !!! a = inline_collectors h !!! a) ∧
    view_inline h' i = view_inline h i ++ plain_runs rest ∧
    valid_inline h' i.
Proof.
  induction rest as [|chunk rest IH]; intros h o i Hi [Hvalid Hmarkers].
  - exists h. cbn. rewrite app_nil_r. repeat split; try done; apply agree_refl.
  - cbn [for_each]. unfold bind at 1.
    rewrite (inline_chunk_next h o i chunk Hi Hvalid).
    remember (mkInlineElement chunk (length (marker_sets h))) as e eqn:Hedef.
    match goal with |- context [for_each _ _ ?h1] => remember h1 as h1' eqn:Hh1 end.
    assert (InlineCollector.elements h1' i = InlineCollector.elements h i ++ [e]) as Hel.
    { subst h1'. unfold InlineCollector.elements. cbn.
      rewrite lookup_total_app_l by (by rewrite length_alter).
      by rewrite list_lookup_total_alter_eq. }
    assert (valid_inline h1' i) as Hv1.
    { split.
      - subst h1'. cbn. rewrite length_app, length_alter. lia.
      - rewrite Hel. apply Forall_app. split.
        + eapply Forall_impl; [exact Hmarkers|]. subst h1'. cbn.
          intros e0 He0. rewrite length_app. lia.
        + apply Forall_singleton. subst h1' e. cbn. rewrite length_app. cbn. lia. }
    destruct (IH h1' o i) as (h' & Hrun & Hcs & Hbs & Hsl & Hls & Hms & Hlen & Hother & Hview & Hv).
    { subst h1'. exact Hi. }
    { exact Hv1. }
    exists h'. split; [exact Hrun|].
    split; [by rewrite Hcs, Hh1|]. split; [by rewrite Hbs, Hh1|].
    split; [by rewrite Hsl, Hh1|]. split; [by rewrite Hls, Hh1|].
    split; [|split; [|split; [|split]]].
    + eapply agree_trans; [|exact Hms]. subst h1'. cbn. apply agree_app.
    + subst h1'. cbn in Hlen. rewrite length_app, length_alter in Hlen. lia.
    + intros a Ha Hne. rewrite Hother.
      * subst h1'. cbn. rewrite lookup_total_app_l by (by rewrite length_alter).
        by rewrite list_lookup_total_alter_ne.
      * subst h1'. cbn. rewrite length_app, length_alter. lia.
      * done.
    + rewrite Hview. unfold plain_runs. rewrite fmap_cons.
      rewrite (cons_middle _ (view_inline h i)), app_assoc. f_equal.
      unfold view_inline. rewrite Hel, fmap_app. f_equal.
      * apply Forall_fmap_ext. eapply Forall_impl; [exact Hmarkers|].
        cbn. intros e0 He0. f_equal. subst h1'. unfold get_markers. cbn.
        by rewrite lookup_total_app_l.
      * subst h1' e. cbn. unfold get_markers. cbn.
        by rewrite list_lookup_total_middle.
    + exact Hv.
Qed.

Lemma inline_output_run h chunk rest :
  ∃ h' i,
    inline_output (chunk :: rest) h = Ok (length (collectors h)) h' ∧
    get_collector h' (length (collectors h)) = mkCollector (Some i) None ∧
    view_inline h' i = plain_runs (chunk :: rest) ∧
    valid_inline h' i ∧
    frame h h' ∧
    block_collectors h' = block_collectors h ∧
    style_lists h' = style_lists h ∧
    links h' = links h ∧
    agree (collectors h) (collectors h').
Proof.
  unfold inline_output, ExcelRenderer.placeholder, Collector.__init__.
  step. cbn [for_each]. unfold bind at 1, bind at 1.
  rewrite inline_chunk_first; last first.
  { unfold get_collector. by norm. }
  norm.
  remember (mkInlineElement chunk (length (marker_sets h))) as e eqn:Hedef.
  match goal with |- context [for_each _ _ ?h1] => remember h1 as h1' eqn:Hh1 end.
  assert (get_collector h1' (length (collectors h)) =
            mkCollector (Some (length (inline_collectors h))) None) as Hc1.
  { subst h1'. unfold get_collector. by norm. }
  assert (InlineCollector.elements h1' (length (inline_collectors h)) = [e]) as Hel.
  { subst h1'. by norm. }
  assert (valid_inline h1' (length (inline_collectors h))) as Hv1.
  { split.
    - subst h1'. cbn. rewrite length_app. cbn. lia.
    - rewrite Hel. apply Forall_singleton. subst h1' e. cbn.
      rewrite length_app. cbn. lia. }
  destruct (inline_chunks_loop rest h1' (length (collectors h))
              (length (inline_collectors h)))
    as (h' & Hrun & Hcs & Hbs & Hsl & Hls & Hms & Hlen & Hother & Hview & Hv).
  { by rewrite Hc1. }
  { exact Hv1. }
  rewrite Hrun. exists h', (length (inline_collectors h)).
  split; [reflexivity|]. split; [|split; [|split; [|split; [|split; [|split; [|split]]]]]].
  - unfold get_collector in *. by rewrite Hcs.
  - rewrite Hview. unfold plain_runs. rewrite fmap_cons. cbn [app]. f_equal.
    unfold view_inline. rewrite Hel. subst h1' e. cbn. unfold get_markers. cbn.
    by rewrite list_lookup_total_middle.
  - exact Hv.
  - split; [|split].
    + eapply agree_trans; [|exact Hms]. subst h1'. cbn. apply agree_app.
    + rewrite Hsl, Hh1. cbn. apply agree_refl.
    + split.
      * subst h1'. cbn in Hlen. rewrite length_app in Hlen. lia.
      * intros a Ha. rewrite Hother.
        -- subst h1'. cbn. by rewrite lookup_total_app_l.
        -- subst h1'. cbn. rewrite length_app. lia.
        -- lia.
  - by rewrite Hbs, Hh1.
  - by rewrite Hsl, Hh1.
  - by rewrite Hls, Hh1.
  - rewrite Hcs, Hh1. cbn. apply agree_app.
Qed.

(** One paragraph: its block comes at the end of the blocks of the
    document, which are new if it is the first one. *)
Lemma paragraph_token_run h out chunk rest :
  out < length (collectors h) →
  inline (get_collector h out) = None →
  (∀ ob, block (get_collector h out) = Some ob → ob < length (block_collectors h)) →
  ∃ h' ob e,
    paragraph_token out (chunk :: rest) h = Ok tt h' ∧
    get_collector h' out = mkCollector None (Some ob) ∧
    ob < length (block_collectors h') ∧
    BlockCollector.elements h' ob =
      match block (get_collector h out) with
      | Some ob0 => BlockCollector.elements h ob0
      | None => []
      end ++ [e] ∧
    view_element h' e = paragraph_row (chunk :: rest) ∧
    valid_element h' e ∧
    frame h h' ∧
    links h' = links h ∧
    length (collectors h) ≤ length (collectors h').
Proof.
  intros Hout Hinl Hob.
  destruct (inline_output_run h chunk rest)
    as (h1 & i & Hrun1 & Hc1 & Hview1 & Hv1 & Hfr1 & Hbs1 & Hsl1 & Hls1 & [Hlen1 Hcs1]).
  unfold paragraph_token. unfold bind at 1. rewrite Hrun1.
  unfold bind at 1, ExcelRenderer.paragraph.
  rewrite (nested_block_inline_run h1 _ i) by (by rewrite Hc1).
  remember (mkBlockElement i (length (style_lists h1))) as e eqn:Hedef.
  match goal with |- context [bind _ _ ?h2] => remember h2 as h2' eqn:Hh2 end.
  assert (get_collector h2' out = get_collector h out) as Hc2.
  { subst h2'. unfold get_collector. cbn. by apply Hcs1. }
  assert (BlockCollector.elements h2' (length (block_collectors h1)) = [e]) as Hel2.
  { subst h2'. by norm. }
  assert (∀ bc cs, view_element
            (Heap (marker_sets h1) (style_lists h1 ++ [["paragraph"]])
                  (inline_collectors h1) bc cs (links h1)) e =
            paragraph_row (chunk :: rest)) as Hview.
  { intros bc cs. subst e. unfold view_element, paragraph_row. cbn. f_equal.
    - exact Hview1.
    - unfold get_styles. cbn. by apply list_lookup_total_middle. }
  assert (∀ bc cs, valid_element
            (Heap (marker_sets h1) (style_lists h1 ++ [["paragraph"]])
                  (inline_collectors h1) bc cs (links h1)) e) as Hvalid.
  { intros bc cs. subst e. split; cbn.
    - rewrite length_app. cbn. lia.
    - exact Hv1. }
  assert (∀ bc cs, frame h
            (Heap (marker_sets h1) (style_lists h1 ++ [["paragraph"]])
                  (inline_collectors h1) bc cs (links h1))) as Hframe.
  { intros bc cs. eapply frame_trans; [exact Hfr1|]. apply frame_new_style_list. }
  unfold bind at 1, Collector.__iadd__, bind at 1.
  destruct (block (get_collector h out)) as [ob|] eqn:Hblock.
  - rewrite (add_block_pending h2' out _ ob) by (by rewrite Hc2).
    rewrite Hel2. subst h2'. store. unfold ret.
    specialize (Hob ob eq_refl).
    eexists _, ob, e. split; [reflexivity|].
    split; [|split; [|split; [|split; [|split; [|split; [|split]]]]]].
    + fold (get_collector h1 out). unfold get_collector in *. cbn.
      rewrite Hcs1 by done. destruct (collectors h !!! out) as [ci cb].
      cbn in *. by rewrite Hinl, Hblock.
    + cbn. rewrite length_alter, length_app, Hbs1. lia.
    + unfold BlockCollector.elements. cbn.
      rewrite alter_app_l by (by rewrite Hbs1).
      rewrite lookup_total_app_l by (by rewrite length_alter, Hbs1).
      rewrite list_lookup_total_alter_eq by (by rewrite Hbs1).
      by rewrite Hbs1.
    + apply Hview.
    + apply Hvalid.
    + apply Hframe.
    + done.
    + cbn. lia.
  - assert (get_collector h2' out = mkCollector None None) as Hc2'.
    { rewrite Hc2. destruct (get_collector h out) as [ci cb]. cbn in *.
      by rewrite Hinl, Hblock. }
    rewrite add_block_first; [|exact Hc2'| |]; cycle 1.
    { subst h2'. cbn. lia. }
    { subst h2'. cbn. rewrite length_app. cbn. lia. }
    rewrite Hel2. subst h2'. store. unfold ret.
    eexists _, (length (block_collectors h1 ++ [[e]])), e. split; [reflexivity|].
    split; [|split; [|split; [|split; [|split; [|split; [|split]]]]]].
    + unfold get_collector. cbn. apply list_lookup_total_insert_eq. lia.
    + cbn. rewrite !length_app. cbn. lia.
    + unfold BlockCollector.elements. cbn. by rewrite lookup_total_app_len.
    + apply Hview.
    + apply Hvalid.
    + apply Hframe.
    + done.
    + cbn. rewrite length_insert. lia.
Qed.

Lemma paragraphs_loop ps : ∀ h out,
  Forall (λ chunks, chunks ≠ []) ps →
  document h out →
  ∃ h',
    for_each ps (paragraph_token out) h = Ok tt h' ∧
    document h' out ∧
    emitted h' out = emitted h out ++ (paragraph_row <$> ps) ∧
    links h' = links h.
Proof.
  induction ps as [|p ps IH]; intros h out Hps Hdoc.
  - exists h. cbn. by rewrite app_nil_r.
  - apply Forall_cons in Hps as [Hp Hps].
    destruct p as [|chunk rest]; [done|].
    destruct Hdoc as (Hout & Hinl & Hblock).
    destruct (paragraph_token_run h out chunk rest Hout Hinl)
      as (h1 & ob & e & Hrun & Hc1 & Hob1 & Hel1 & Hview1 & Hvalid1 & Hfr1 & Hls1 & Hlen1).
    { intros ob Hob. rewrite Hob in Hblock. tauto. }
    assert (Forall (valid_element h1) (BlockCollector.elements h1 ob) ∧
            view_block h1 ob = emitted h out ++ [paragraph_row (chunk :: rest)])
      as [Hvalid Hview].
    { unfold view_block, emitted. rewrite Hel1.
      destruct (block (get_collector h out)) as [ob0|].
      - destruct Hblock as [_ Hold]. split.
        + apply Forall_app. split; [|by apply Forall_singleton].
          eapply Forall_impl; [exact Hold|]. intros e0. by apply valid_element_frame.
        + rewrite fmap_app. cbn. rewrite Hview1. f_equal.
          apply Forall_fmap_ext. eapply Forall_impl; [exact Hold|].
          intros e0. by apply view_element_frame.
      - split; [by apply Forall_singleton|]. cbn. by rewrite Hview1. }
    destruct (IH h1 out Hps) as (h' & Hrun' & Hdoc' & Hem' & Hls').
    { split; [lia|]. rewrite Hc1. cbn. done. }
    exists h'. cbn [for_each]. unfold bind at 1. rewrite Hrun.
    split; [exact Hrun'|]. split; [exact Hdoc'|]. split; [|by rewrite Hls'].
    rewrite Hem'. unfold emitted at 1. rewrite Hc1. cbn [block].
    rewrite Hview, fmap_cons, <-app_assoc. done.
Qed.

Lemma markdown_paragraphs_run h ps :
  Forall (λ chunks, chunks ≠ []) ps →
  ∃ h',
    markdown_paragraphs ps h = Ok (length (collectors h)) h' ∧
    document h' (length (collectors h)) ∧
    emitted h' (length (collectors h)) = paragraph_row <$> ps ∧
    links h' = links h.
Proof.
  intros Hps. unfold markdown_paragraphs, ExcelRenderer.placeholder, Collector.__init__.
  step.
  match goal with |- context [bind _ _ ?h0] => remember h0 as h0' eqn:Hh0 end.
  assert (get_collector h0' (length (collectors h)) = mkCollector None None) as Hc0.
  { subst h0'. unfold get_collector. by norm. }
  destruct (paragraphs_loop ps h0' (length (collectors h)) Hps)
    as (h' & Hrun & Hdoc & Hem & Hls).
  { split; [|by rewrite Hc0]. subst h0'. cbn. rewrite length_app. cbn. lia. }
  unfold bind at 1. rewrite Hrun. unfold ret. exists h'.
  split; [done|]. split; [done|]. split; [|by rewrite Hls, Hh0].
  rewrite Hem. unfold emitted. by rewrite Hc0.
Qed.

(** ** Cells *)

Lemma fill_content_view h content : ∀ cell,
  ExcelCollectorRenderer.fill_content h cell content =
    openpyxl.mkCell
      (openpyxl.rich_text cell ++
         ((λ run, (run.1, ExcelCollectorRenderer.create_font run.2))
            <$> view_inline h content))
      (openpyxl.font cell) (openpyxl.alignment cell) (openpyxl.fill cell).
Proof.
  unfold ExcelCollectorRenderer.fill_content, view_inline.
  induction (InlineCollector.elements h content) as [|e es IH]; intros cell.
  - cbn. rewrite app_nil_r. by destruct cell.
  - cbn [foldl]. rewrite IH. cbn. by rewrite <-app_assoc.
Qed.

Lemma do_cell_paragraph h cell e chunks :
  view_element h e = paragraph_row chunks →
  ExcelCollectorRenderer.do_cell h cell e = paragraph_cell cell chunks.
Proof.
  unfold view_element, paragraph_row. intros [= Hruns Hstyles].
  unfold ExcelCollectorRenderer.do_cell. rewrite Hstyles.
  replace (ExcelCollectorRenderer.create_style ["paragraph"])
    with (@None openpyxl.Font, @None openpyxl.Alignment, @None openpyxl.PatternFill)
    by (vm_compute; reflexivity).
  rewrite fill_content_view, Hruns.
  unfold ExcelCollectorRenderer.prepare_cell.
  rewrite decide_False; last first.
  { rewrite elem_of_cons, elem_of_nil. intros [?|[]]. discriminate. }
  cbn. unfold paragraph_cell, plain_runs. f_equal.
  rewrite <-list_fmap_compose. apply list_fmap_ext. intros k chunk _.
  cbn. reflexivity.
Qed.

(** ** [Collector.render] *)

Lemma iadd_empty_collector h self o :
  get_collector h o = mkCollector None None →
  Collector.__iadd__ self (VCollector o) h = Ok self h.
Proof.
  intros Ho. unfold Collector.__iadd__. unfold bind at 1, bind at 1, gets at 1.
  rewrite Ho. reflexivity.
Qed.

Lemma get_collector_new ms sl ic bc (cs : list CollectorObj) c ls n :
  n = length cs →
  get_collector (Heap ms sl ic bc (cs ++ [c]) ls) n = c.
Proof. intros ->. unfold get_collector. cbn. by apply list_lookup_total_middle. Qed.

Lemma get_collector_old ms sl ic bc (cs : list CollectorObj) c ls h a :
  collectors h = cs → a < length cs →
  get_collector (Heap ms sl ic bc (cs ++ [c]) ls) a = get_collector h a.
Proof.
  intros <- Ha. unfold get_collector. cbn. by apply lookup_total_app_l.
Qed.

(** With no link registered, [render] renders the blocks that are pending
    in the collector, from row [row] on in column [col]. *)
Lemma render_document h out worksheet row col :
  document h out →
  links h = [] →
  ∃ h' b,
    Collector.render ExcelRenderer.terminate out worksheet row col h =
      Ok (ExcelCollectorRenderer.ws
            (ExcelCollectorRenderer.render h'
               (ExcelCollectorRenderer.__init__ worksheet row col) b)) h' ∧
    view_block h' b = emitted h out.
Proof.
  intros (Hout & Hinl & Hblock) Hls. unfold Collector.render.
  unfold bind at 1, gets at 1.
  destruct (block (get_collector h out)) as [ob|] eqn:Hb.
  - destruct Hblock as [Hob _]. unfold bind at 1, ret at 1.
    unfold bind at 1. rewrite terminate_empty_run by exact Hls.
    unfold bind at 1. rewrite iadd_empty_collector by (by apply get_collector_new).
    unfold bind at 1, gets at 1.
    rewrite (get_collector_old _ _ _ _ _ _ _ h out) by done.
    rewrite Hb. unfold bind at 1, gets at 1, ret.
    eexists _, ob. split; [reflexivity|].
    unfold emitted. by rewrite Hb.
  - rewrite Hinl. unfold bind at 1, bind at 1.
    rewrite BlockCollector_init_None_run.
    unfold bind at 1. prims. unfold modify. store.
    unfold bind at 1. rewrite terminate_empty_run by exact Hls. store.
    unfold bind at 1. rewrite iadd_empty_collector; last first.
    { apply get_collector_new. by rewrite !length_alter. }
    unfold bind at 1.
    unfold get_collector at 1. cbn [collectors].
    rewrite lookup_total_app_l by (by rewrite !length_alter).
    rewrite !list_lookup_total_alter_eq by (by rewrite ?length_alter).
    cbn [block]. unfold bind at 1.
    eexists _, (length (block_collectors h)). split; [reflexivity|].
    unfold emitted, view_block, BlockCollector.elements. rewrite Hb. cbn.
    by rewrite lookup_total_app_len.
Qed.

(** C8.  Rendering a BlockCollector of N blocks from row r in column c
    writes the cells of rows r, r + 1, ..., r + N - 1 of column c, the
    k-th block in row r + k, and leaves every other cell as it was.  A
    document made of paragraphs of plain text only is rendered into one
    row per paragraph. *)
Theorem render_rows (h : heap) (worksheet : gmap (nat * nat) openpyxl.Cell)
    (r c b : nat) (paragraphs : list (list string))
    (Hplain : Forall (λ chunks, chunks ≠ []) paragraphs) :
  (∀ r' c',
     ExcelCollectorRenderer.ws
       (ExcelCollectorRenderer.render h
          (ExcelCollectorRenderer.__init__ worksheet r c) b) !! (r', c') =
       if decide (c' = c ∧ r ≤ r' < r + length (BlockCollector.elements h b))
       then ExcelCollectorRenderer.do_cell h (openpyxl.cell worksheet r' c')
              <$> BlockCollector.elements h b !! (r' - r)
       else worksheet !! (r', c')) ∧
  ∃ worksheet' h',
    convert_paragraphs paragraphs worksheet r c (new_renderer h) =
      Ok worksheet' h' ∧
    ∀ r' c',
      worksheet' !! (r', c') =
        if decide (c' = c ∧ r ≤ r' < r + length paragraphs)
        then paragraph_cell (openpyxl.cell worksheet r' c') <$> paragraphs !! (r' - r)
        else worksheet !! (r', c').
Proof.
  assert (∀ h0 b0 r' c',
     ExcelCollectorRenderer.ws
       (ExcelCollectorRenderer.render h0
          (ExcelCollectorRenderer.__init__ worksheet r c) b0) !! (r', c') =
       if decide (c' = c ∧ r ≤ r' < r + length (BlockCollector.elements h0 b0))
       then ExcelCollectorRenderer.do_cell h0 (openpyxl.cell worksheet r' c')
              <$> BlockCollector.elements h0 b0 !! (r' - r)
       else worksheet !! (r', c')) as Hrender.
  { intros h0 b0 r' c'. unfold ExcelCollectorRenderer.render.
    destruct (render_loop_spec h0 (BlockCollector.elements h0 b0)
                (ExcelCollectorRenderer.__init__ worksheet r c)) as (_ & _ & Hws).
    rewrite Hws. cbn.
    destruct (decide (c' = c ∧ r ≤ r')) as [[-> Hr]|Hn].
    - destruct (BlockCollector.elements h0 b0 !! (r' - r)) as [block|] eqn:Hk.
      + rewrite decide_True; [done|].
        apply lookup_lt_Some in Hk. lia.
      + rewrite decide_False; [done|].
        apply lookup_ge_None in Hk. lia.
    - rewrite decide_False; [done|]. intros [? [? ?]]. apply Hn. done. }
  split; [apply Hrender|].
  destruct (markdown_paragraphs_run (new_renderer h) paragraphs Hplain)
    as (h1 & Hrun1 & Hdoc1 & Hem1 & Hls1).
  destruct (render_document h1 (length (collectors (new_renderer h))) worksheet r c Hdoc1)
    as (h' & ob & Hrun & Hview).
  { by rewrite Hls1. }
  eexists _, h'. split.
  { unfold convert_paragraphs, bind. rewrite Hrun1. exact Hrun. }
  intros r' c'. rewrite Hrender.
  rewrite Hem1 in Hview. unfold view_block in Hview.
  assert (length (BlockCollector.elements h' ob) = length paragraphs) as Hlen.
  { rewrite <-(length_fmap (view_element h')), Hview. apply length_fmap. }
  rewrite Hlen. destruct (decide _) as [Hin|]; [|done].
  pose proof (f_equal (λ l, l !! (r' - r)) Hview) as Hk. cbn in Hk.
  rewrite !list_lookup_fmap in Hk.
  destruct (BlockCollector.elements h' ob !! (r' - r)) as [e|];
    destruct (paragraphs !! (r' - r)) as [chunks|]; try done.
  cbn [fmap option_fmap option_map] in Hk |- *.
  f_equal. apply do_cell_paragraph. congruence.
Qed.

Lemma render_rows_witness :
  (∀ r' c',
     ExcelCollectorRenderer.ws
       (ExcelCollectorRenderer.render (state_of (two_blocks empty_heap))
          (ExcelCollectorRenderer.__init__ ∅ 1 1) 0) !! (r', c') =
       if decide (c' = 1 ∧
                  1 ≤ r' < 1 + length (BlockCollector.elements
                                         (state_of (two_blocks empty_heap)) 0))
       then ExcelCollectorRenderer.do_cell (state_of (two_blocks empty_heap))
              (openpyxl.cell ∅ r' c')
              <$> BlockCollector.elements (state_of (two_blocks empty_heap)) 0
                    !! (r' - 1)
       else (∅ : gmap (nat * nat) openpyxl.Cell) !! (r', c')) ∧
  ∃ worksheet' h',
    convert_paragraphs [["one"]; ["two, "; "three"]] ∅ 1 1
      (new_renderer (state_of (two_blocks empty_heap))) = Ok worksheet' h' ∧
    ∀ r' c',
      worksheet' !! (r', c') =
        if decide (c' = 1 ∧ 1 ≤ r' < 1 + length [["one"]; ["two, "; "three"]])
        then paragraph_cell (openpyxl.cell ∅ r' c')
               <$> [["one"]; ["two, "; "three"]] !! (r' - 1)
        else (∅ : gmap (nat * nat) openpyxl.Cell) !! (r', c').
Proof.
  apply (render_rows (state_of (two_blocks empty_heap)) ∅ 1 1 0
           [["one"]; ["two, "; "three"]]).
  repeat constructor; discriminate.
Defined.

(** * Further properties *)

(** ** Collector: what [+=] does with the other operands *)

(** Appending an InlineCollector to a collector: with no inline pending,
    the InlineCollector itself, not a copy, becomes the pending inline;
    with an inline pending, the runs of the appended one come after its
    own, and the appended one stays as it was.  Blocks, styles and markers
    are untouched. *)
Theorem append_inline_collector (h : heap) (self ic : nat)
    (Hself : self < length (collectors h)) :
  (inline (get_collector h self) = None →
     ∃ h',
       Collector.__iadd__ self (VInlineCollector ic) h = Ok self h' ∧
       get_collector h' self = mkCollector (Some ic) (block (get_collector h self)) ∧
       inline_collectors h' = inline_collectors h ∧
       block_collectors h' = block_collectors h ∧
       frame h h') ∧
  (∀ i, inline (get_collector h self) = Some i →
     i < length (inline_collectors h) →
     ∃ h',
       Collector.__iadd__ self (VInlineCollector ic) h = Ok self h' ∧
       get_collector h' self = get_collector h self ∧
       InlineCollector.elements h' i =
         InlineCollector.elements h i ++ InlineCollector.elements h ic ∧
       (ic ≠ i → InlineCollector.elements h' ic = InlineCollector.elements h ic) ∧
       marker_sets h' = marker_sets h ∧
       block_collectors h' = block_collectors h).
Proof.
  split.
  - intros Hi. eexists. split.
    { unfold Collector.__iadd__, bind. rewrite add_inline_first by exact Hi.
      reflexivity. }
    split; [|split; [done|split; [done|]]].
    + unfold get_collector. cbn. by rewrite list_lookup_total_alter_eq.
    + apply frame_blocks_collectors.
  - intros i Hi Hvalid. eexists. split.
    { unfold Collector.__iadd__, bind. rewrite (add_inline_pending h self i) by exact Hi.
      reflexivity. }
    split; [done|]. split; [|split; [|done]].
    + unfold InlineCollector.elements at 1. cbn.
      by rewrite list_lookup_total_alter_eq.
    + intros Hne. unfold InlineCollector.elements at 1. cbn.
      by rewrite list_lookup_total_alter_ne.
Qed.

Lemma append_inline_collector_witness :
  (∃ h',
     Collector.__iadd__ 1 (VInlineCollector 1)
       (state_of (ExcelRenderer.placeholder (state_of (inline_then_inline empty_heap))))
       = Ok 1 h' ∧
     get_collector h' 1 =
       mkCollector (Some 1)
         (block (get_collector
            (state_of (ExcelRenderer.placeholder
                         (state_of (inline_then_inline empty_heap)))) 1)) ∧
     inline_collectors h' =
       inline_collectors
         (state_of (ExcelRenderer.placeholder (state_of (inline_then_inline empty_heap)))) ∧
     block_collectors h' =
       block_collectors
         (state_of (ExcelRenderer.placeholder (state_of (inline_then_inline empty_heap)))) ∧
     frame (state_of (ExcelRenderer.placeholder (state_of (inline_then_inline empty_heap))))
           h') ∧
  (∃ h',
     Collector.__iadd__ 0 (VInlineCollector 1) (state_of (inline_then_inline empty_heap))
       = Ok 0 h' ∧
     get_collector h' 0 = get_collector (state_of (inline_then_inline empty_heap)) 0 ∧
     InlineCollector.elements h' 0 =
       InlineCollector.elements (state_of (inline_then_inline empty_heap)) 0
         ++ InlineCollector.elements (state_of (inline_then_inline empty_heap)) 1 ∧
     (1 ≠ 0 → InlineCollector.elements h' 1 =
                InlineCollector.elements (state_of (inline_then_inline empty_heap)) 1) ∧
     marker_sets h' = marker_sets (state_of (inline_then_inline empty_heap)) ∧
     block_collectors h' = block_collectors (state_of (inline_then_inline empty_heap))).
Proof.
  split.
  - apply (append_inline_collector
             (state_of (ExcelRenderer.placeholder
                          (state_of (inline_then_inline empty_heap)))) 1 1).
    + vm_compute. lia.
    + vm_compute. reflexivity.
  - apply (append_inline_collector (state_of (inline_then_inline empty_heap)) 0 1).
    + vm_compute. lia.
    + vm_compute. reflexivity.
    + vm_compute. lia.
Defined.

(** [_add_block] on an allocated collector always succeeds, and changes no
    other collector. *)
Lemma add_block_ok h self bc :
  self < length (collectors h) →
  ∃ h',
    Collector._add_block self bc h = Ok tt h' ∧
    length (collectors h') = length (collectors h) ∧
    (∀ o, o ≠ self → get_collector h' o = get_collector h o) ∧
    (∀ b, block (get_collector h self) = Some b → collectors h' = collectors h).
Proof.
  intros Hself. destruct (get_collector h self) as [ci [b|]] eqn:Hc.
  - eexists. split; [apply (add_block_pending h self bc b); by rewrite Hc|].
    cbn. by repeat split.
  - unfold Collector._add_block. step. rewrite Hc. cbn [block inline].
    destruct ci as [i|].
    + step. step. rewrite BlockCollector_init_run. step. step. step.
      unfold get_collector at 1. cbn [collectors].
      rewrite !list_lookup_total_alter_eq by (by rewrite ?length_alter).
      cbn [block inline]. cbn beta.
      rewrite BlockCollector_iadd_run. store.
      eexists. split; [reflexivity|]. cbn. split; [by rewrite !length_alter|].
      split; [|done]. intros o Ho. unfold get_collector. cbn.
      by rewrite !list_lookup_total_alter_ne.
    + step. step. rewrite BlockCollector_init_None_run. step. step.
      unfold get_collector at 1. cbn [collectors].
      rewrite !list_lookup_total_alter_eq by (by rewrite ?length_alter).
      cbn [block inline]. cbn beta.
      rewrite BlockCollector_iadd_run. store.
      eexists. split; [reflexivity|]. cbn. split; [by rewrite !length_alter|].
      split; [|done]. intros o Ho. unfold get_collector. cbn.
      by rewrite !list_lookup_total_alter_ne.
Qed.

Lemma add_inline_ok h self ic :
  ∃ h', Collector._add_inline self ic h = Ok tt h'.
Proof.
  destruct (inline (get_collector h self)) as [i|] eqn:Hi.
  - eexists. by apply (add_inline_pending h self i).
  - eexists. by apply add_inline_first.
Qed.

(** For an allocated collector, [+=] raises for an object of an unexpected
    class and for nothing else: a BlockCollector, an InlineCollector, a
    Collector and None are always accepted. *)
Theorem append_raises_only_unexpected (h : heap) (self : nat) (other : value)
    (Hself : self < length (collectors h)) :
  (∃ e h', Collector.__iadd__ self other h = Raise e h') ↔
  (∃ class_name repr, other = VOther class_name repr).
Proof.
  split.
  - intros (e & h' & Hraise). destruct other as [b|i|o| |cn r]; [| | | |by eauto];
      exfalso; unfold Collector.__iadd__ in Hraise.
    + destruct (add_block_ok h self b Hself) as (h1 & Hrun & _).
      unfold bind in Hraise. by rewrite Hrun in Hraise.
    + destruct (add_inline_ok h self i) as (h1 & Hrun).
      unfold bind in Hraise. by rewrite Hrun in Hraise.
    + unfold bind at 1, bind at 1, gets at 1 in Hraise.
      destruct (get_collector h o) as [oi [ob|]] eqn:Ho; cbn [block inline] in Hraise.
      * destruct (add_block_ok h self ob Hself) as (h1 & Hrun & Hlen & _).
        unfold bind at 1 in Hraise. rewrite Hrun in Hraise.
        unfold bind at 1, gets at 1 in Hraise.
        destruct (inline (get_collector h1 o)) as [oi'|].
        -- unfold bind at 1 in Hraise. rewrite BlockCollector_init_run in Hraise.
           match type of Hraise with context [Collector._add_block _ ?nb ?h2] =>
             destruct (add_block_ok h2 self nb) as (h3 & Hrun3 & _);
               [cbn; lia|rewrite Hrun3 in Hraise] end.
           done.
        -- done.
      * destruct oi as [oi|]; [|done].
        destruct (add_inline_ok h self oi) as (h1 & Hrun).
        by rewrite Hrun in Hraise.
    + done.
  - intros (cn & r & ->). by eexists _, _.
Qed.

Lemma append_raises_only_unexpected_witness :
  (∃ e h', Collector.__iadd__ 0 (VOther "str" "'text'")
             (state_of (inline_then_inline empty_heap)) = Raise e h') ↔
  (∃ class_name repr, VOther "str" "'text'" = VOther class_name repr).
Proof.
  apply (append_raises_only_unexpected (state_of (inline_then_inline empty_heap)) 0).
  vm_compute. lia.
Defined.

(** Appending another collector: one that holds nothing changes nothing;
    one that holds an inline only, or a block only, is appended as that
    inline or that block; of one that holds a block and a trailing inline,
    the blocks are appended and then the inline, promoted to a new block
    with no style, after them. *)
Theorem append_collector (h : heap) (self o : nat)
    (Hself : self < length (collectors h)) :
  (get_collector h o = mkCollector None None →
     Collector.__iadd__ self (VCollector o) h = Ok self h) ∧
  (∀ oi, get_collector h o = mkCollector (Some oi) None →
     Collector.__iadd__ self (VCollector o) h =
       Collector.__iadd__ self (VInlineCollector oi) h) ∧
  (∀ ob, get_collector h o = mkCollector None (Some ob) →
     Collector.__iadd__ self (VCollector o) h =
       Collector.__iadd__ self (VBlockCollector ob) h) ∧
  (∀ oi ob b,
     get_collector h o = mkCollector (Some oi) (Some ob) →
     block (get_collector h self) = Some b →
     b < length (block_collectors h) →
     ∃ h' s,
       Collector.__iadd__ self (VCollector o) h = Ok self h' ∧
       get_collector h' self = get_collector h self ∧
       BlockCollector.elements h' b =
         BlockCollector.elements h b ++ BlockCollector.elements h ob
           ++ [mkBlockElement oi s] ∧
       get_styles h' s = [] ∧
       length (style_lists h) ≤ s ∧
       frame h h').
Proof.
  split; [by apply iadd_empty_collector|]. split; [|split].
  - intros oi Ho. unfold Collector.__iadd__.
    unfold bind at 1, bind at 1, gets at 1. rewrite Ho. reflexivity.
  - intros ob Ho. unfold Collector.__iadd__.
    unfold bind at 1, bind at 1, gets at 1. rewrite Ho. cbn [block].
    destruct (add_block_ok h self ob Hself) as (h1 & Hrun & _ & Hother & Hsame).
    unfold bind at 1. rewrite Hrun.
    unfold bind at 1, gets at 1.
    replace (get_collector h1 o) with (get_collector h o);
      [rewrite Ho; cbn [inline]; unfold bind, ret; by rewrite Hrun|].
    destruct (decide (o = self)) as [->|Hne]; [|by rewrite Hother].
    unfold get_collector. rewrite (Hsame ob); [done|by rewrite Ho].
  - intros oi ob b Ho Hb Hvalid. unfold Collector.__iadd__.
    unfold bind at 1, bind at 1, gets at 1. rewrite Ho. cbn [block].
    unfold bind at 1. rewrite (add_block_pending h self ob b Hb).
    unfold bind at 1, gets at 1.
    replace (get_collector _ o) with (get_collector h o) by done.
    rewrite Ho. cbn [inline].
    unfold bind at 1. rewrite BlockCollector_init_run. store.
    rewrite (add_block_pending _ self _ b) by exact Hb.
    unfold ret. eexists _, (length (style_lists h)). split; [reflexivity|].
    split; [done|]. split; [|split; [|split]].
    + unfold BlockCollector.elements. cbn [block_collectors].
      rewrite lookup_total_app_len. cbn [lookup_total list_lookup_total].
      rewrite alter_app_l by (by rewrite length_alter).
      rewrite lookup_total_app_l by (by rewrite !length_alter).
      rewrite !list_lookup_total_alter_eq by (by rewrite ?length_alter).
      by rewrite <-app_assoc.
    + unfold get_styles. cbn. by apply list_lookup_total_middle.
    + done.
    + split; [apply agree_refl|]. split; [apply agree_app|apply agree_refl].
Qed.

Lemma append_collector_witness :
  ∃ h' s,
    Collector.__iadd__ 0 (VCollector 1) (state_of (block_and_trailing_inline empty_heap))
      = Ok 0 h' ∧
    get_collector h' 0 = get_collector (state_of (block_and_trailing_inline empty_heap)) 0 ∧
    BlockCollector.elements h' 1 =
      BlockCollector.elements (state_of (block_and_trailing_inline empty_heap)) 1
        ++ BlockCollector.elements (state_of (block_and_trailing_inline empty_heap)) 3
        ++ [mkBlockElement 2 s] ∧
    get_styles h' s = [] ∧
    length (style_lists (state_of (block_and_trailing_inline empty_heap))) ≤ s ∧
    frame (state_of (block_and_trailing_inline empty_heap)) h'.
Proof.
  apply (append_collector (state_of (block_and_trailing_inline empty_heap)) 0 1).
  - vm_compute. lia.
  - vm_compute. reflexivity.
  - vm_compute. reflexivity.
  - vm_compute. lia.
Defined.

(** ** InlineCollector: markers *)

Lemma total_lookup_ext {A} `{Inhabited A} (l l' : list A) :
  length l = length l' → (∀ a, a < length l → l !!! a = l' !!! a) → l = l'.
Proof.
  intros Hlen Hext. apply list_eq. intros a.
  destruct (decide (a < length l)) as [Ha|Ha].
  - destruct (lookup_lt_is_Some_2 l a Ha) as [x Hx].
    destruct (lookup_lt_is_Some_2 l' a) as [y Hy]; [lia|].
    specialize (Hext a Ha).
    rewrite (list_lookup_total_correct _ _ _ Hx),
      (list_lookup_total_correct _ _ _ Hy) in Hext.
    by rewrite Hx, Hy, Hext.
  - rewrite !lookup_ge_None_2 by lia. done.
Qed.

Lemma foldl_union_length marker (es : list InlineElement) : ∀ (t : list (gset string)),
  length (foldl (λ t e, alter (λ s, s ∪ {[marker]}) (markers e) t) t es) = length t.
Proof.
  induction es as [|e es IH]; intros t; cbn [foldl]; [done|].
  by rewrite IH, length_alter.
Qed.

Lemma foldl_union_lookup marker (es : list InlineElement) : ∀ (t : list (gset string)) a,
  a < length t →
  foldl (λ t e, alter (λ s, s ∪ {[marker]}) (markers e) t) t es !!! a =
    if decide (a ∈ markers <$> es) then t !!! a ∪ {[marker]} else t !!! a.
Proof.
  induction es as [|e es IH]; intros t a Ha; cbn [foldl].
  - rewrite decide_False; [done|]. rewrite fmap_nil. apply not_elem_of_nil.
  - rewrite IH by (by rewrite length_alter). rewrite fmap_cons.
    destruct (decide (markers e = a)) as [Heq|Hne].
    + rewrite Heq, list_lookup_total_alter_eq by done.
      rewrite (decide_True (P := a ∈ a :: _)) by left.
      destruct (decide (a ∈ markers <$> es)); [|done].
      rewrite <-(assoc_L (∪)). by rewrite (idemp_L (∪)).
    + rewrite list_lookup_total_alter_ne by done.
      destruct (decide (a ∈ markers <$> es)) as [Hin|Hout].
      * rewrite decide_True; [done|]. by right.
      * rewrite decide_False; [done|].
        rewrite elem_of_cons. intros [?|?]; congruence.
Qed.

Lemma apply_marker_adds_internal h self marker :
  ∃ h',
    InlineCollector.apply_marker self marker h = Ok self h' ∧
    inline_collectors h' = inline_collectors h ∧
    style_lists h' = style_lists h ∧
    block_collectors h' = block_collectors h ∧
    collectors h' = collectors h ∧
    links h' = links h ∧
    length (marker_sets h') = length (marker_sets h) ∧
    (∀ a, a < length (marker_sets h) →
       get_markers h' a =
         if decide (a ∈ markers <$> InlineCollector.elements h self)
         then get_markers h a ∪ {[marker]}
         else get_markers h a).
Proof.
  eexists. split; [apply apply_marker_run|].
  cbn. split; [done|]. split; [done|]. split; [done|]. split; [done|]. split; [done|].
  split; [apply foldl_union_length|].
  intros a Ha. unfold get_markers. cbn. by apply foldl_union_lookup.
Qed.

(** [apply_marker] adds the marker to the set of every run of the
    collector, and to no other set; texts, order and everything else stay.
    A set reached twice gets the marker once, so marking a second time
    with the same marker changes nothing. *)
Theorem apply_marker_adds_once (h : heap) (self : nat) (marker : string) :
  ∃ h',
    InlineCollector.apply_marker self marker h = Ok self h' ∧
    inline_collectors h' = inline_collectors h ∧
    style_lists h' = style_lists h ∧
    block_collectors h' = block_collectors h ∧
    collectors h' = collectors h ∧
    links h' = links h ∧
    length (marker_sets h') = length (marker_sets h) ∧
    (∀ a, a < length (marker_sets h) →
       get_markers h' a =
         if decide (a ∈ markers <$> InlineCollector.elements h self)
         then get_markers h a ∪ {[marker]}
         else get_markers h a) ∧
    InlineCollector.apply_marker self marker h' = Ok self h'.
Proof.
  destruct (apply_marker_adds_internal h self marker)
    as (h' & Hrun & Hic & Hsl & Hbc & Hcs & Hls & Hlen & Hget).
  exists h'. do 8 (split; [done|]).
  rewrite apply_marker_run. f_equal.
  assert (foldl (λ t e, alter (λ s, s ∪ {[marker]}) (markers e) t) (marker_sets h')
                (InlineCollector.elements h' self) = marker_sets h') as Hsame.
  { apply total_lookup_ext; [by rewrite foldl_union_length|].
    intros a Ha. rewrite foldl_union_length in Ha.
    rewrite foldl_union_lookup by done.
    unfold InlineCollector.elements. rewrite Hic.
    fold (InlineCollector.elements h self). fold (get_markers h' a).
    rewrite Hget by lia.
    destruct (decide _); [|done].
    rewrite <-(assoc_L (∪)). by rewrite (idemp_L (∪)). }
  unfold upd_marker_sets. rewrite Hsame. by destruct h'.
Qed.

(** The runs of a collector after [apply_marker], for a collector whose
    objects are allocated. *)
Lemma apply_marker_view h self marker :
  valid_inline h self →
  ∃ h',
    InlineCollector.apply_marker self marker h = Ok self h' ∧
    view_inline h' self = marked marker (view_inline h self) ∧
    valid_inline h' self ∧
    inline_collectors h' = inline_collectors h ∧
    style_lists h' = style_lists h ∧
    block_collectors h' = block_collectors h ∧
    collectors h' = collectors h ∧
    links h' = links h ∧
    length (marker_sets h') = length (marker_sets h).
Proof.
  intros [Hvalid Hmarkers].
  destruct (apply_marker_adds_internal h self marker) as (h' & Hrun & Hic & Hsl & Hbc & Hcs & Hls & Hlen & Hget).
  exists h'. split; [exact Hrun|]. split; [|split; [|by repeat split]].
  - unfold view_inline, marked, InlineCollector.elements. rewrite Hic.
    rewrite <-list_fmap_compose. apply list_fmap_ext. intros k e He. cbn.
    f_equal. rewrite Hget.
    + rewrite decide_True; [done|]. apply list_elem_of_fmap_2.
      by eapply list_elem_of_lookup_2.
    + rewrite Forall_forall in Hmarkers. apply Hmarkers.
      by eapply list_elem_of_lookup_2.
  - split; [by rewrite Hic|]. unfold InlineCollector.elements. rewrite Hic, Hlen. done.
Qed.

(** ** The inline hooks *)

Lemma inline_of_run h bucket attr i :
  inline (get_collector h bucket) = Some i →
  inline_of bucket attr h = Ok i h.
Proof. intros Hi. unfold inline_of, bind, gets. by rewrite Hi. Qed.

Lemma inline_of_none h bucket attr :
  inline (get_collector h bucket) = None →
  inline_of bucket attr h = Raise (no_attribute attr) h.
Proof. intros Hi. unfold inline_of, bind, gets. by rewrite Hi. Qed.

(** [emphasis], [strikethrough] and [autolink] return the InlineCollector
    that is pending in their placeholder, the object itself, with their
    marker on every run; [double_emphasis] puts both i and b, so that a
    text in double emphasis is rendered in bold italics. *)
Theorem inline_hooks_mark (h : heap) (text i : nat)
    (Hinline : inline (get_collector h text) = Some i)
    (Hvalid : valid_inline h i) :
  (∃ h', ExcelRenderer.emphasis text h = Ok i h' ∧
         view_inline h' i = marked "i" (view_inline h i)) ∧
  (∃ h', ExcelRenderer.strikethrough text h = Ok i h' ∧
         view_inline h' i = marked "s" (view_inline h i)) ∧
  (∃ h', ExcelRenderer.autolink text h = Ok i h' ∧
         view_inline h' i = marked "l" (view_inline h i)) ∧
  (∃ h', ExcelRenderer.double_emphasis text h = Ok i h' ∧
         view_inline h' i = marked "b" (marked "i" (view_inline h i)) ∧
         ∀ run, run ∈ view_inline h' i →
           ∃ f, ExcelCollectorRenderer.create_font run.2 = Some f ∧
                openpyxl.b f = true ∧ openpyxl.i f = true).
Proof.
  assert (∀ marker, ∃ h',
            (i <- inline_of text "apply_marker" ;;
             InlineCollector.apply_marker i marker) h = Ok i h' ∧
            view_inline h' i = marked marker (view_inline h i)) as Hone.
  { intros marker.
    destruct (apply_marker_view h i marker Hvalid) as (h' & Hrun & Hview & _).
    exists h'. unfold bind. by rewrite (inline_of_run h text _ i Hinline). }
  split; [apply Hone|]. split; [apply Hone|]. split; [apply Hone|].
  destruct (apply_marker_view h i "i" Hvalid) as (h1 & Hrun1 & Hview1 & Hvalid1 & _).
  destruct (apply_marker_view h1 i "b" Hvalid1) as (h2 & Hrun2 & Hview2 & _).
  exists h2. split; [|split].
  - unfold ExcelRenderer.double_emphasis, bind.
    by rewrite (inline_of_run h text _ i Hinline), Hrun1.
  - by rewrite Hview2, Hview1.
  - intros run Hrun. rewrite Hview2, Hview1 in Hrun.
    unfold marked in Hrun. rewrite <-list_fmap_compose in Hrun.
    apply list_elem_of_fmap in Hrun as (run0 & -> & _). cbn.
    unfold ExcelCollectorRenderer.create_font.
    assert ("b" ∈ run0.2 ∪ {["i"]} ∪ {["b"]}) as Hb.
    { apply elem_of_union. right. by apply elem_of_singleton. }
    assert ("i" ∈ run0.2 ∪ {["i"]} ∪ {["b"]}) as Hi.
    { apply elem_of_union. left. apply elem_of_union. right. by apply elem_of_singleton. }
    rewrite decide_False; last first.
    { intros Hsize. apply size_empty_inv in Hsize.
      apply (not_elem_of_empty (C := gset string) "b"). by apply Hsize. }
    eexists. split; [reflexivity|]. cbn.
    by rewrite (decide_True (P := "b" ∈ _)), (decide_True (P := "i" ∈ _)).
Qed.

Lemma inline_hooks_mark_witness :
  (∃ h', ExcelRenderer.emphasis 0 (state_of (link_content empty_heap)) = Ok 0 h' ∧
         view_inline h' 0 = marked "i" (view_inline (state_of (link_content empty_heap)) 0)) ∧
  (∃ h', ExcelRenderer.strikethrough 0 (state_of (link_content empty_heap)) = Ok 0 h' ∧
         view_inline h' 0 = marked "s" (view_inline (state_of (link_content empty_heap)) 0)) ∧
  (∃ h', ExcelRenderer.autolink 0 (state_of (link_content empty_heap)) = Ok 0 h' ∧
         view_inline h' 0 = marked "l" (view_inline (state_of (link_content empty_heap)) 0)) ∧
  (∃ h', ExcelRenderer.double_emphasis 0 (state_of (link_content empty_heap)) = Ok 0 h' ∧
         view_inline h' 0 =
           marked "b" (marked "i" (view_inline (state_of (link_content empty_heap)) 0)) ∧
         ∀ run, run ∈ view_inline h' 0 →
           ∃ f, ExcelCollectorRenderer.create_font run.2 = Some f ∧
                openpyxl.b f = true ∧ openpyxl.i f = true).
Proof.
  apply (inline_hooks_mark (state_of (link_content empty_heap)) 0 0).
  - vm_compute. reflexivity.
  - split; [vm_compute; lia|]. vm_compute. repeat constructor.
Defined.

Lemma InlineCollector_append_run self t h :
  InlineCollector.append self t h =
    Ok self
       (Heap (marker_sets h ++ [∅]) (style_lists h)
             (alter (λ es, es ++ [mkInlineElement t (length (marker_sets h))]) self
                    (inline_collectors h))
             (block_collectors h) (collectors h) (links h)).
Proof. reflexivity. Qed.

Lemma append_view h self t :
  valid_inline h self →
  view_inline (Heap (marker_sets h ++ [∅]) (style_lists h)
                 (alter (λ es, es ++ [mkInlineElement t (length (marker_sets h))]) self
                        (inline_collectors h))
                 (block_collectors h) (collectors h) (links h)) self =
    view_inline h self ++ [(t, ∅)].
Proof.
  intros [Hvalid Hmarkers]. unfold view_inline, InlineCollector.elements. cbn.
  rewrite list_lookup_total_alter_eq by done. rewrite fmap_app. f_equal.
  - apply Forall_fmap_ext. eapply Forall_impl; [exact Hmarkers|].
    cbn. intros e He. unfold get_markers. cbn. by rewrite lookup_total_app_l.
  - cbn. unfold get_markers. cbn. by rewrite list_lookup_total_middle.
Qed.

(** [link] on a content that holds an inline: the target is registered,
    every run of the content gets the marker l, and a last run "[n]" with
    no marker is added, where n is the place, counted from 1, that the
    target has in the registry.  The result is the InlineCollector of the
    content itself. *)
Theorem link_marks_and_numbers (h : heap) (target : string) (title : option string)
    (content i : nat)
    (Hinline : inline (get_collector h content) = Some i)
    (Hvalid : valid_inline h i) :
  ∃ h' k,
    ExcelRenderer.link target title content h = Ok i h' ∧
    links h' = openpyxl.IndexedList_add (links h) target ∧
    links h' !! k = Some target ∧
    view_inline h' i =
      marked "l" (view_inline h i) ++ [("[" +:+ pretty (S k) +:+ "]", ∅)].
Proof.
  unfold ExcelRenderer.link. unfold bind at 1. rewrite register_spec.
  set (k := default (length (links h)) (openpyxl.IndexedList_index (links h) target)).
  set (h1 := upd_links (λ l, openpyxl.IndexedList_add l target) h).
  assert (valid_inline h1 i) as Hvalid1 by exact Hvalid.
  destruct (apply_marker_view h1 i "l" Hvalid1)
    as (h2 & Hrun2 & Hview2 & Hvalid2 & Hic2 & Hsl2 & Hbc2 & Hcs2 & Hls2 & Hlen2).
  unfold bind at 1. rewrite (inline_of_run h1 content _ i) by exact Hinline.
  unfold bind at 1. rewrite Hrun2. rewrite InlineCollector_append_run.
  eexists _, k. split; [reflexivity|]. split; [|split].
  - cbn. by rewrite Hls2.
  - cbn. rewrite Hls2. subst h1. cbn.
    apply (IndexedList_index_Some _ target k). apply IndexedList_index_add.
  - rewrite (append_view h2 i _ Hvalid2), Hview2. done.
Qed.

Lemma link_marks_and_numbers_witness :
  ∃ h' k,
    ExcelRenderer.link "http://x" None 0 (state_of (link_content empty_heap)) = Ok 0 h' ∧
    links h' =
      openpyxl.IndexedList_add (links (state_of (link_content empty_heap))) "http://x" ∧
    links h' !! k = Some "http://x" ∧
    view_inline h' 0 =
      marked "l" (view_inline (state_of (link_content empty_heap)) 0)
        ++ [("[" +:+ pretty (S k) +:+ "]", ∅)].
Proof.
  apply (link_marks_and_numbers (state_of (link_content empty_heap)) "http://x" None 0 0).
  - vm_compute. reflexivity.
  - split; [vm_compute; lia|]. vm_compute. repeat constructor.
Defined.

(** ** Hooks on a placeholder that holds nothing *)

(** On a placeholder with nothing pending, every block hook and every
    inline hook that marks its text raises an AttributeError and leaves
    the store as it was, but [link] has registered its target by then. *)
Theorem hooks_on_empty_placeholder (h : heap) (bucket : nat) (level : nat)
    (target : string) (title : option string)
    (Hempty : get_collector h bucket = mkCollector None None) :
  ExcelRenderer.paragraph bucket h = Raise (no_attribute "nest") h ∧
  ExcelRenderer.header bucket level h = Raise (no_attribute "nest") h ∧
  ExcelRenderer.block_quote bucket h = Raise (no_attribute "nest") h ∧
  ExcelRenderer.list_item bucket h = Raise (no_attribute "nest") h ∧
  ExcelRenderer.list bucket h = Raise (no_attribute "nest") h ∧
  ExcelRenderer.emphasis bucket h = Raise (no_attribute "apply_marker") h ∧
  ExcelRenderer.double_emphasis bucket h = Raise (no_attribute "apply_marker") h ∧
  ExcelRenderer.strikethrough bucket h = Raise (no_attribute "apply_marker") h ∧
  ExcelRenderer.autolink bucket h = Raise (no_attribute "apply_marker") h ∧
  ExcelRenderer.link target title bucket h =
    Raise (no_attribute "apply_marker")
          (upd_links (λ l, openpyxl.IndexedList_add l target) h).
Proof.
  assert (∀ style, ExcelRenderer.nested_block bucket style h =
                     Raise (no_attribute "nest") h) as Hblock.
  { intros style. unfold ExcelRenderer.nested_block, ExcelRenderer._get_block.
    unfold bind, gets. by rewrite Hempty. }
  assert (∀ B (k : nat → M B),
            (i <- inline_of bucket "apply_marker" ;; k i) h =
              Raise (no_attribute "apply_marker") h) as Hinl.
  { intros B k. unfold bind. rewrite inline_of_none; [done|]. by rewrite Hempty. }
  do 5 (split; [apply Hblock|]). do 4 (split; [apply Hinl|]).
  unfold ExcelRenderer.link. unfold bind at 1. rewrite register_spec.
  unfold bind. rewrite inline_of_none; [done|].
  unfold get_collector in *. cbn. by rewrite Hempty.
Qed.

Lemma hooks_on_empty_placeholder_witness :
  ExcelRenderer.paragraph 0 (state_of (ExcelRenderer.placeholder empty_heap)) =
    Raise (no_attribute "nest") (state_of (ExcelRenderer.placeholder empty_heap)) ∧
  ExcelRenderer.link "http://x" None 0 (state_of (ExcelRenderer.placeholder empty_heap)) =
    Raise (no_attribute "apply_marker")
          (upd_links (λ l, openpyxl.IndexedList_add l "http://x")
                     (state_of (ExcelRenderer.placeholder empty_heap))).
Proof.
  pose proof (hooks_on_empty_placeholder
                (state_of (ExcelRenderer.placeholder empty_heap)) 0 1 "http://x" None
                eq_refl) as H.
  split; [apply H|]. apply H.
Defined.

(** ** BlockCollector: append and merge *)

(** [append] puts a block with a new, empty style list at the end.  The
    blocks of a collector whose blocks were distinct stay distinct. *)
Theorem append_block_fresh (h : heap) (self content : nat)
    (Hself : self < length (block_collectors h))
    (Hvalid : valid_styles h self) (Hdistinct : distinct_block h self) :
  ∃ h' s,
    BlockCollector.append self content h = Ok tt h' ∧
    BlockCollector.elements h' self =
      BlockCollector.elements h self ++ [mkBlockElement content s] ∧
    get_styles h' s = [] ∧
    valid_styles h' self ∧
    distinct_block h' self ∧
    frame h h'.
Proof.
  unfold BlockCollector.append. step.
  eexists _, (length (style_lists h)). split; [reflexivity|].
  assert (BlockCollector.elements
            (Heap (marker_sets h) (style_lists h ++ [[]]) (inline_collectors h)
               (alter (λ es, es ++ [mkBlockElement content (length (style_lists h))])
                      self (block_collectors h))
               (collectors h) (links h)) self =
          BlockCollector.elements h self
            ++ [mkBlockElement content (length (style_lists h))]) as Hel.
  { unfold BlockCollector.elements. cbn. by rewrite list_lookup_total_alter_eq. }
  split; [exact Hel|]. split; [|split; [|split]].
  - unfold get_styles. cbn. by apply list_lookup_total_middle.
  - unfold valid_styles. rewrite Hel. cbn. rewrite length_app. cbn.
    apply Forall_app. split.
    + eapply Forall_impl; [exact Hvalid|]. cbn. intros e He. lia.
    + apply Forall_singleton. cbn. lia.
  - unfold distinct_block. rewrite Hel, fmap_app. cbn.
    apply NoDup_app. split; [exact Hdistinct|]. split; [|apply NoDup_singleton].
    intros a Ha Hin. apply list_elem_of_singleton in Hin as ->.
    apply list_elem_of_fmap in Ha as (e & Heq & He).
    unfold valid_styles in Hvalid. rewrite Forall_forall in Hvalid.
    specialize (Hvalid e He). lia.
  - apply frame_new_style_list.
Qed.

Lemma append_block_fresh_witness :
  ∃ h' s,
    BlockCollector.append 0 0 (state_of (two_blocks empty_heap)) = Ok tt h' ∧
    BlockCollector.elements h' 0 =
      BlockCollector.elements (state_of (two_blocks empty_heap)) 0
        ++ [mkBlockElement 0 s] ∧
    get_styles h' s = [] ∧
    valid_styles h' 0 ∧
    distinct_block h' 0 ∧
    frame (state_of (two_blocks empty_heap)) h'.
Proof.
  apply (append_block_fresh (state_of (two_blocks empty_heap)) 0 0).
  - vm_compute. lia.
  - unfold valid_styles. vm_compute. repeat constructor.
  - unfold distinct_block. apply (bool_decide_unpack _). vm_compute. exact I.
Defined.

(** A merge puts the blocks of the other collector after those of the
    collector, the same objects and not copies, and leaves the other
    collector as it was.  Merging two collectors of distinct blocks that
    have no block in common gives a collector of distinct blocks. *)
Theorem merge_blocks (h : heap) (self other : nat)
    (Hself : self < length (block_collectors h)) :
  ∃ h',
    BlockCollector.__iadd__ self other h = Ok self h' ∧
    BlockCollector.elements h' self =
      BlockCollector.elements h self ++ BlockCollector.elements h other ∧
    (other ≠ self → BlockCollector.elements h' other = BlockCollector.elements h other) ∧
    style_lists h' = style_lists h ∧
    inline_collectors h' = inline_collectors h ∧
    marker_sets h' = marker_sets h ∧
    (valid_styles h self → valid_styles h other → valid_styles h' self) ∧
    (distinct_block h self → distinct_block h other → disjoint_blocks h self other →
       distinct_block h' self).
Proof.
  eexists. split; [apply BlockCollector_iadd_run|].
  assert (BlockCollector.elements
            (Heap (marker_sets h) (style_lists h) (inline_collectors h)
               (alter (λ l, l ++ BlockCollector.elements h other) self (block_collectors h))
               (collectors h) (links h)) self =
          BlockCollector.elements h self ++ BlockCollector.elements h other) as Hel.
  { unfold BlockCollector.elements at 1. cbn. by rewrite list_lookup_total_alter_eq. }
  split; [exact Hel|]. split; [|split; [done|split; [done|split; [done|split]]]].
  - intros Hne. unfold BlockCollector.elements at 1. cbn.
    by rewrite list_lookup_total_alter_ne.
  - intros Hv Hv'. unfold valid_styles. rewrite Hel. cbn.
    apply Forall_app. by split.
  - intros Hd Hd' Hdisj. unfold distinct_block. rewrite Hel, fmap_app.
    apply NoDup_app. split; [exact Hd|]. split; [|exact Hd'].
    intros a Ha Ha'.
    apply list_elem_of_fmap in Ha as (e & -> & He).
    apply list_elem_of_fmap in Ha' as (e' & Heq & He').
    by apply (Hdisj e e').
Qed.

Lemma merge_blocks_witness :
  ∃ h',
    BlockCollector.__iadd__ 0 1 (state_of (two_collectors empty_heap)) = Ok 0 h' ∧
    BlockCollector.elements h' 0 =
      BlockCollector.elements (state_of (two_collectors empty_heap)) 0
        ++ BlockCollector.elements (state_of (two_collectors empty_heap)) 1 ∧
    (1 ≠ 0 → BlockCollector.elements h' 1 =
               BlockCollector.elements (state_of (two_collectors empty_heap)) 1) ∧
    style_lists h' = style_lists (state_of (two_collectors empty_heap)) ∧
    inline_collectors h' = inline_collectors (state_of (two_collectors empty_heap)) ∧
    marker_sets h' = marker_sets (state_of (two_collectors empty_heap)) ∧
    (valid_styles (state_of (two_collectors empty_heap)) 0 →
     valid_styles (state_of (two_collectors empty_heap)) 1 → valid_styles h' 0) ∧
    (distinct_block (state_of (two_collectors empty_heap)) 0 →
     distinct_block (state_of (two_collectors empty_heap)) 1 →
     disjoint_blocks (state_of (two_collectors empty_heap)) 0 1 →
     distinct_block h' 0).
Proof.
  apply (merge_blocks (state_of (two_collectors empty_heap)) 0 1).
  vm_compute. lia.
Defined.

(** ** BlockCollector: [nest] in general *)

(** [nest] puts the tag in front of a style list once for every block of
    the collector that holds this list, and leaves a list that no block of
    the collector holds as it is; the blocks and their contents stay. *)
Theorem nest_once_per_occurrence (h : heap) (self : nat) (style : string) :
  ∃ h',
    BlockCollector.nest self style h = Ok self h' ∧
    block_collectors h' = block_collectors h ∧
    inline_collectors h' = inline_collectors h ∧
    marker_sets h' = marker_sets h ∧
    ∀ a, a < length (style_lists h) →
      get_styles h' a =
        replicate (occurrences a (BlockCollector.elements h self)) style
          ++ get_styles h a.
Proof.
  destruct (nest_spec self style h) as (h' & Hrun & Hb & Hi & Hm & _ & Hs).
  by exists h'.
Qed.

(** ** The block hooks *)

Lemma nested_block_pending_run h bucket b style :
  get_collector h bucket = mkCollector None (Some b) →
  ExcelRenderer.nested_block bucket style h = BlockCollector.nest b style h.
Proof.
  intros Hc. unfold ExcelRenderer.nested_block, ExcelRenderer._get_block.
  unfold bind at 1, bind at 1, gets at 1. by rewrite Hc.
Qed.

(** A block hook on a placeholder that holds distinct blocks and no
    inline returns the BlockCollector of the placeholder, the object
    itself, with its tag in front of the styles of every block. *)
Theorem block_hooks_nest_pending (h : heap) (bucket b : nat)
    (Hpending : get_collector h bucket = mkCollector None (Some b))
    (Hvalid : valid_styles h b) (Hdistinct : distinct_block h b) :
  (∃ h', ExcelRenderer.list_item bucket h = Ok b h' ∧
         BlockCollector.elements h' b = BlockCollector.elements h b ∧
         ∀ e, e ∈ BlockCollector.elements h b →
           get_styles h' (styles e) = "list_item" :: get_styles h (styles e)) ∧
  (∃ h', ExcelRenderer.list bucket h = Ok b h' ∧
         BlockCollector.elements h' b = BlockCollector.elements h b ∧
         ∀ e, e ∈ BlockCollector.elements h b →
           get_styles h' (styles e) = "list" :: get_styles h (styles e)) ∧
  (∃ h', ExcelRenderer.block_quote bucket h = Ok b h' ∧
         BlockCollector.elements h' b = BlockCollector.elements h b ∧
         ∀ e, e ∈ BlockCollector.elements h b →
           get_styles h' (styles e) = "quote" :: get_styles h (styles e)).
Proof.
  assert (∀ style, ∃ h',
            ExcelRenderer.nested_block bucket style h = Ok b h' ∧
            BlockCollector.elements h' b = BlockCollector.elements h b ∧
            ∀ e, e ∈ BlockCollector.elements h b →
              get_styles h' (styles e) = style :: get_styles h (styles e)) as Hone.
  { intros style.
    destruct (nest_spec b style h) as (h' & Hrun & Hb & _ & _ & _ & Hs).
    exists h'. split; [by rewrite (nested_block_pending_run h bucket b)|].
    split; [unfold BlockCollector.elements; by rewrite Hb|].
    intros e He. rewrite Hs.
    - by rewrite (occurrences_distinct _ e Hdistinct He).
    - unfold valid_styles in Hvalid. rewrite Forall_forall in Hvalid. by apply Hvalid. }
  split; [apply Hone|]. split; apply Hone.
Qed.

Lemma block_hooks_nest_pending_witness :
  ∃ h', ExcelRenderer.block_quote 0 (state_of (block_pending empty_heap)) = Ok 1 h' ∧
        BlockCollector.elements h' 1 =
          BlockCollector.elements (state_of (block_pending empty_heap)) 1 ∧
        ∀ e, e ∈ BlockCollector.elements (state_of (block_pending empty_heap)) 1 →
          get_styles h' (styles e) =
            "quote" :: get_styles (state_of (block_pending empty_heap)) (styles e).
Proof.
  apply (block_hooks_nest_pending (state_of (block_pending empty_heap)) 0 1).
  - vm_compute. reflexivity.
  - unfold valid_styles. vm_compute. repeat constructor.
  - unfold distinct_block. apply (bool_decide_unpack _). vm_compute. exact I.
Defined.

(** A block hook on a placeholder that holds both blocks and an inline
    (a nested list followed by more text of the list item) takes the
    inline only: it returns a new BlockCollector whose one block is that
    inline, and the blocks that were pending are not in it. *)
Theorem block_hooks_prefer_inline (h : heap) (bucket i b : nat)
    (Hboth : get_collector h bucket = mkCollector (Some i) (Some b))
    (Hvalid : b < length (block_collectors h)) :
  ∃ nb s h',
    ExcelRenderer.list_item bucket h = Ok nb h' ∧
    nb ≠ b ∧
    BlockCollector.elements h' nb = [mkBlockElement i s] ∧
    get_styles h' s = ["list_item"] ∧
    BlockCollector.elements h' b = BlockCollector.elements h b ∧
    get_collector h' bucket = get_collector h bucket.
Proof.
  eexists _, (length (style_lists h)), _. split.
  { apply (nested_block_inline_run h bucket i). by rewrite Hboth. }
  split; [lia|]. split; [|split; [|split; [|done]]].
  - unfold BlockCollector.elements. cbn. by apply list_lookup_total_middle.
  - unfold get_styles. cbn. by apply list_lookup_total_middle.
  - unfold BlockCollector.elements. cbn. by apply lookup_total_app_l.
Qed.

Lemma block_hooks_prefer_inline_witness :
  ∃ nb s h',
    ExcelRenderer.list_item 0 (state_of (blocks_then_inline empty_heap)) = Ok nb h' ∧
    nb ≠ 1 ∧
    BlockCollector.elements h' nb = [mkBlockElement 1 s] ∧
    get_styles h' s = ["list_item"] ∧
    BlockCollector.elements h' 1 =
      BlockCollector.elements (state_of (blocks_then_inline empty_heap)) 1 ∧
    get_collector h' 0 = get_collector (state_of (blocks_then_inline empty_heap)) 0.
Proof.
  apply (block_hooks_prefer_inline (state_of (blocks_then_inline empty_heap)) 0 1 1).
  - vm_compute. reflexivity.
  - vm_compute. lia.
Defined.

(** ** Headers *)

Lemma FONTS_level level :
  ExcelCollectorRenderer.FONTS !! ("h" +:+ pretty level) = level_font level.
Proof.
  destruct (decide (level < 7)) as [Hlt|Hge].
  - do 7 (destruct level as [|level]; [vm_compute; reflexivity|]). lia.
  - replace (level_font level) with (@None openpyxl.Font)
      by (do 7 (destruct level as [|level]; [lia|]); reflexivity).
    destruct (ExcelCollectorRenderer.FONTS !! ("h" +:+ pretty level)) as [f|] eqn:Hf;
      [|done].
    exfalso. unfold ExcelCollectorRenderer.FONTS in Hf.
    apply elem_of_list_to_map_2 in Hf.
    apply (list_elem_of_fmap_2 fst) in Hf. cbn in Hf.
    rewrite !elem_of_cons, elem_of_nil in Hf.
    assert (∀ k : nat, "h" +:+ pretty level = "h" +:+ pretty k → level = k) as Hinj.
    { intros k Hk. injection Hk as Hk.
      change (pretty level = pretty k) in Hk.
      by apply (inj (pretty : nat → string)) in Hk. }
    destruct Hf as [Hf|[Hf|[Hf|[Hf|[Hf|[Hf|[]]]]]]].
    + apply (Hinj 1) in Hf. lia.
    + apply (Hinj 2) in Hf. lia.
    + apply (Hinj 3) in Hf. lia.
    + apply (Hinj 4) in Hf. lia.
    + apply (Hinj 5) in Hf. lia.
    + apply (Hinj 6) in Hf. lia.
Qed.

(** [header] on a text that is an inline: one block, whose one style is h
    followed by the level; it resolves to the header font of that level
    for the levels 1 to 6 and to no font for any other level, and never to
    an alignment or a fill. *)
Theorem header_font_by_level (h : heap) (text i level : nat)
    (Hinline : inline (get_collector h text) = Some i) :
  ∃ b s h',
    ExcelRenderer.header text level h = Ok b h' ∧
    BlockCollector.elements h' b = [mkBlockElement i s] ∧
    get_styles h' s = ["h" +:+ pretty level] ∧
    ExcelCollectorRenderer.create_style (get_styles h' s) =
      (level_font level, None, None).
Proof.
  eexists _, (length (style_lists h)), _.
  split; [by apply nested_block_inline_run|].
  assert (get_styles (Heap (marker_sets h) (style_lists h ++ [["h" +:+ pretty level]])
                        (inline_collectors h)
                        (block_collectors h
                           ++ [[mkBlockElement i (length (style_lists h))]])
                        (collectors h) (links h))
                     (length (style_lists h)) = ["h" +:+ pretty level]) as Hs.
  { unfold get_styles. cbn. by apply list_lookup_total_middle. }
  split; [|split; [exact Hs|]].
  - unfold BlockCollector.elements. cbn. by apply list_lookup_total_middle.
  - rewrite Hs. unfold ExcelCollectorRenderer.create_style.
    cbn [foldl]. unfold ExcelCollectorRenderer.style_step.
    rewrite FONTS_level. destruct (level_font level) as [f|] eqn:Hf; [done|].
    assert ("h" +:+ pretty level ≠ "quote") as Hq by (intros Hq; discriminate Hq).
    rewrite decide_False; last first.
    { rewrite elem_of_union, !elem_of_singleton.
      intros [Hl|Hl]; discriminate Hl. }
    by rewrite decide_False.
Qed.

Lemma header_font_by_level_witness :
  ∃ b s h',
    ExcelRenderer.header 0 7 (state_of (link_content empty_heap)) = Ok b h' ∧
    BlockCollector.elements h' b = [mkBlockElement 0 s] ∧
    get_styles h' s = ["h" +:+ pretty 7] ∧
    ExcelCollectorRenderer.create_style (get_styles h' s) = (level_font 7, None, None).
Proof.
  apply (header_font_by_level (state_of (link_content empty_heap)) 0 0 7).
  vm_compute. reflexivity.
Defined.

(** ** Cells of any block *)

(** The cell of a block: the runs that were in the cell are dropped; the
    new runs are a bullet for a list item and then one run per run of the
    block, in order, each with the font of its markers; the font, the
    alignment and the fill of the cell are replaced only by what the
    styles of the block resolve to, and kept otherwise. *)
Theorem do_cell_row (h : heap) (cell : openpyxl.Cell) (block : BlockElement) :
  ExcelCollectorRenderer.do_cell h cell block = row_cell cell (view_element h block) ∧
  ExcelCollectorRenderer.do_cell h cell block =
    ExcelCollectorRenderer.do_cell h
      (openpyxl.mkCell [] (openpyxl.font cell) (openpyxl.alignment cell)
                       (openpyxl.fill cell)) block.
Proof.
  assert (∀ cell0, ExcelCollectorRenderer.do_cell h cell0 block =
                     row_cell cell0 (view_element h block)) as Hrow.
  { intros cell0. unfold ExcelCollectorRenderer.do_cell, row_cell, view_element.
    cbn [fst snd]. rewrite fill_content_view.
    unfold ExcelCollectorRenderer.prepare_cell.
    destruct (ExcelCollectorRenderer.create_style (get_styles h (styles block)))
      as [[[f|] [a|]] [fl|]];
      destruct (decide ("list_item" ∈ get_styles h (styles block))); reflexivity. }
  split; [apply Hrow|]. rewrite !Hrow. unfold row_cell.
  by destruct (ExcelCollectorRenderer.create_style _) as [[f a] fl].
Qed.

(** ** Rendering twice with one renderer *)

(** After a [render] of N blocks the counter of rows of the renderer is at
    r + N + 1, not at r + N, as [zip] has taken one more row than there
    were blocks: a second [render] with the same renderer leaves the cell
    of row r + N as it was and writes its blocks from row r + N + 1 on. *)
Theorem render_again_skips_a_row (h : heap)
    (self : ExcelCollectorRenderer.t) (b1 b2 : nat) :
  let r := ExcelCollectorRenderer.row self in
  let c := ExcelCollectorRenderer.col self in
  let n1 := length (BlockCollector.elements h b1) in
  let n2 := length (BlockCollector.elements h b2) in
  let self1 := ExcelCollectorRenderer.render h self b1 in
  let self2 := ExcelCollectorRenderer.render h self1 b2 in
  ExcelCollectorRenderer.row self1 = r + n1 + 1 ∧
  ExcelCollectorRenderer.ws self2 !! (r + n1, c) =
    ExcelCollectorRenderer.ws self !! (r + n1, c) ∧
  ∀ r' c',
    ExcelCollectorRenderer.ws self2 !! (r', c') =
      if decide (c' = c ∧ r + n1 + 1 ≤ r' < r + n1 + 1 + n2)
      then ExcelCollectorRenderer.do_cell h
             (openpyxl.cell (ExcelCollectorRenderer.ws self1) r' c')
             <$> BlockCollector.elements h b2 !! (r' - (r + n1 + 1))
      else ExcelCollectorRenderer.ws self1 !! (r', c').
Proof.
  cbn zeta. unfold ExcelCollectorRenderer.render.
  destruct (render_loop_spec h (BlockCollector.elements h b1) self) as (Hcol1 & Hrow1 & Hws1).
  destruct (render_loop_spec h (BlockCollector.elements h b2)
              (ExcelCollectorRenderer.render_loop h self (BlockCollector.elements h b1)))
    as (Hcol2 & Hrow2 & Hws2).
  cbn zeta in *.
  assert (∀ r' c',
    ExcelCollectorRenderer.ws
      (ExcelCollectorRenderer.render_loop h
         (ExcelCollectorRenderer.render_loop h self (BlockCollector.elements h b1))
         (BlockCollector.elements h b2)) !! (r', c') =
      if decide (c' = ExcelCollectorRenderer.col self ∧
                 ExcelCollectorRenderer.row self + length (BlockCollector.elements h b1) + 1
                   ≤ r' < ExcelCollectorRenderer.row self
                            + length (BlockCollector.elements h b1) + 1
                            + length (BlockCollector.elements h b2))
      then ExcelCollectorRenderer.do_cell h
             (openpyxl.cell
                (ExcelCollectorRenderer.ws
                   (ExcelCollectorRenderer.render_loop h self
                      (BlockCollector.elements h b1))) r' c')
             <$> BlockCollector.elements h b2
                   !! (r' - (ExcelCollectorRenderer.row self
                             + length (BlockCollector.elements h b1) + 1))
      else ExcelCollectorRenderer.ws
             (ExcelCollectorRenderer.render_loop h self
                (BlockCollector.elements h b1)) !! (r', c')) as Hsecond.
  { intros r' c'. rewrite Hws2, Hcol1, Hrow1.
    replace (S (ExcelCollectorRenderer.row self + length (BlockCollector.elements h b1)))
      with (ExcelCollectorRenderer.row self + length (BlockCollector.elements h b1) + 1)
      by lia.
    destruct (decide (c' = ExcelCollectorRenderer.col self ∧
                      ExcelCollectorRenderer.row self
                        + length (BlockCollector.elements h b1) + 1 ≤ r'))
      as [[-> Hr]|Hn].
    - destruct (BlockCollector.elements h b2 !! _) as [block|] eqn:Hk.
      + rewrite decide_True; [done|]. apply lookup_lt_Some in Hk. lia.
      + rewrite decide_False; [done|]. apply lookup_ge_None in Hk. lia.
    - rewrite decide_False; [done|]. intros [? [? ?]]. by apply Hn. }
  split; [lia|]. split; [|exact Hsecond].
  rewrite Hsecond. rewrite decide_False by lia.
  rewrite Hws1. rewrite decide_True by (split; [done|lia]).
  rewrite lookup_ge_None_2; [done|]. lia.
Qed.

(** ** [terminate] and the blocks of the document *)

Lemma terminate_loop_blocks ls : ∀ k h collector cb,
  block (get_collector h collector) = Some cb →
  cb < length (block_collectors h) →
  ∃ h',
    for_each (enumerate k ls) (ExcelRenderer.terminate_link collector) h = Ok tt h' ∧
    length (block_collectors h) ≤ length (block_collectors h') ∧
    ∀ a, a < length (block_collectors h) → a ≠ cb →
      block_collectors h' !!! a = block_collectors h !!! a.
Proof.
  induction ls as [|link ls IH]; intros k h collector cb Hcb Hvalid.
  - exists h. cbn. by repeat split.
  - cbn [enumerate for_each]. unfold bind at 1.
    rewrite (terminate_link_run h collector cb k link Hcb Hvalid). cbn zeta.
    match goal with |- context [for_each _ _ ?h1] => remember h1 as h1' eqn:Hh1 end.
    destruct (IH (S k) h1' collector cb) as (h' & Hrun & Hlen & Hkeep).
    { subst h1'. exact Hcb. }
    { subst h1'. cbn. rewrite length_app, length_alter. lia. }
    exists h'. split; [exact Hrun|].
    assert (length (block_collectors h1') = length (block_collectors h) + 1) as Hlen1.
    { subst h1'. cbn. rewrite length_app, length_alter. cbn. lia. }
    split; [lia|]. intros a Ha Hne. rewrite Hkeep by lia.
    subst h1'. cbn. rewrite lookup_total_app_l by (by rewrite length_alter).
    by rewrite list_lookup_total_alter_ne.
Qed.

(** [terminate] changes no collector and no BlockCollector that was there
    before. *)
Lemma terminate_keeps h c h' :
  ExcelRenderer.terminate h = Ok c h' →
  agree (collectors h) (collectors h') ∧
  agree (block_collectors h) (block_collectors h').
Proof.
  destruct (links h) as [|l ls] eqn:Hlinks.
  - rewrite terminate_empty_run by done. intros [= <- <-]. cbn.
    split; [apply agree_app|apply agree_refl].
  - unfold ExcelRenderer.terminate, Collector.__init__.
    step. step. rewrite decide_True by (rewrite Hlinks; cbn; lia).
    step. unfold bind at 1. rewrite InlineCollector_init_run. norm.
    unfold bind at 1. rewrite BlockCollector_init_run. norm.
    unfold bind at 1, Collector.__iadd__, bind at 1.
    rewrite add_block_first; cycle 1.
    { unfold get_collector. norm. reflexivity. }
    { cbn. rewrite length_app. cbn. lia. }
    { cbn. rewrite length_app. cbn. lia. }
    norm. unfold ret at 1. unfold bind at 1.
    match goal with |- context [for_each _ _ ?h1] => remember h1 as h1' eqn:Hh1 end.
    destruct (terminate_loop (links h) 1 h1' (length (collectors h))
                (length (block_collectors h) + 1))
      as (h2 & es & Hrun & Hcs & _).
    { subst h1'. unfold get_collector. cbn.
      rewrite list_lookup_total_insert_eq by (rewrite length_app; cbn; lia). done. }
    { subst h1'. cbn. rewrite length_app. cbn. lia. }
    destruct (terminate_loop_blocks (links h) 1 h1' (length (collectors h))
                (length (block_collectors h) + 1))
      as (h2' & Hrun' & Hlen & Hkeep).
    { subst h1'. unfold get_collector. cbn.
      rewrite list_lookup_total_insert_eq by (rewrite length_app; cbn; lia). done. }
    { subst h1'. cbn. rewrite length_app. cbn. lia. }
    rewrite Hrun in Hrun'. injection Hrun' as <-.
    rewrite Hrun. intros [= <- <-]. cbn. split.
    + rewrite Hcs, Hh1. cbn. split.
      * rewrite length_insert, length_app. lia.
      * intros a Ha. rewrite list_lookup_total_insert_ne by lia.
        by apply lookup_total_app_l.
    + assert (length (block_collectors h1') = length (block_collectors h) + 2) as Hlen1.
      { subst h1'. cbn. rewrite length_app. cbn. lia. }
      split; [lia|]. intros a Ha. rewrite Hkeep by lia.
      subst h1'. cbn. by apply lookup_total_app_l.
Qed.

(** ** [Collector.render] with references *)

Lemma render_unfold terminate self worksheet row col :
  Collector.render terminate self worksheet row col =
    (c <- gets (λ h, get_collector h self) ;;
     match block c with
     | None =>
         b <- BlockCollector.__init__ (inline c) ;;
         set_block self (Some b) ;;
         set_inline self None
     | Some _ => ret tt
     end ;;
     render_pending terminate self worksheet row col).
Proof. reflexivity. Qed.

Lemma do_cell_view h cell block :
  ExcelCollectorRenderer.do_cell h cell block = row_cell cell (view_element h block).
Proof.
  unfold ExcelCollectorRenderer.do_cell, row_cell, view_element.
  cbn [fst snd]. rewrite fill_content_view.
  unfold ExcelCollectorRenderer.prepare_cell.
  destruct (ExcelCollectorRenderer.create_style (get_styles h (styles block)))
    as [[[f|] [a|]] [fl|]];
    destruct (decide ("list_item" ∈ get_styles h (styles block))); reflexivity.
Qed.

Lemma render_written h worksheet r c b :
  rows_written worksheet r c (view_block h b)
    (ExcelCollectorRenderer.ws
       (ExcelCollectorRenderer.render h
          (ExcelCollectorRenderer.__init__ worksheet r c) b)).
Proof.
  intros r' c'. unfold ExcelCollectorRenderer.render.
  destruct (render_loop_spec h (BlockCollector.elements h b)
              (ExcelCollectorRenderer.__init__ worksheet r c)) as (_ & _ & Hws).
  rewrite Hws. cbn. unfold view_block. rewrite length_fmap, list_lookup_fmap.
  destruct (decide (c' = c ∧ r ≤ r')) as [[-> Hr]|Hn].
  - destruct (BlockCollector.elements h b !! (r' - r)) as [block|] eqn:Hk.
    + rewrite decide_True; [cbn; by rewrite do_cell_view|].
      apply lookup_lt_Some in Hk. lia.
    + rewrite decide_False; [done|]. apply lookup_ge_None in Hk. lia.
  - rewrite decide_False; [done|]. intros [? [? ?]]. by apply Hn.
Qed.

Lemma render_pending_run h out ob worksheet r c :
  out < length (collectors h) →
  block (get_collector h out) = Some ob →
  ob < length (block_collectors h) →
  Forall (valid_element h) (BlockCollector.elements h ob) →
  ∃ h',
    render_pending ExcelRenderer.terminate out worksheet r c h =
      Ok (ExcelCollectorRenderer.ws
            (ExcelCollectorRenderer.render h'
               (ExcelCollectorRenderer.__init__ worksheet r c) ob)) h' ∧
    view_block h' ob = view_block h ob ++ reference_rows (links h) ∧
    links h' = [] ∧
    get_collector h' out = get_collector h out.
Proof.
  intros Hout Hb Hob Hvalid. unfold render_pending. cbn zeta.
  destruct (links h) as [|l ls] eqn:Hlinks.
  - unfold bind at 1. rewrite terminate_empty_run by exact Hlinks.
    unfold bind at 1. rewrite iadd_empty_collector by (by apply get_collector_new).
    unfold bind at 1, gets at 1.
    rewrite (get_collector_old _ _ _ _ _ _ _ h out) by done.
    rewrite Hb. unfold bind at 1, gets at 1, ret.
    eexists. split; [reflexivity|]. cbn. rewrite app_nil_r.
    split; [done|]. split; [done|].
    by rewrite (get_collector_old _ _ _ _ _ _ _ h out).
  - destruct (terminate_links_run h) as (h1 & cb & Hrun1 & Hc1 & Hview1 & Hls1 & Hfr1).
    { by rewrite Hlinks. }
    destruct (terminate_keeps h _ h1 Hrun1) as [[Hlcs Hcs] [Hlbs Hbs]].
    assert (get_collector h1 out = get_collector h out) as Hout1.
    { unfold get_collector. by apply Hcs. }
    unfold bind at 1. rewrite Hrun1.
    unfold bind at 1, Collector.__iadd__.
    unfold bind at 1, bind at 1, gets at 1. rewrite Hc1. cbn [block].
    unfold bind at 1.
    rewrite (add_block_pending h1 out cb ob) by (by rewrite Hout1).
    unfold bind at 1, gets at 1.
    replace (get_collector _ (length (collectors h)))
      with (get_collector h1 (length (collectors h))) by done.
    rewrite Hc1. cbn [inline]. unfold ret at 1. unfold ret at 1.
    unfold bind at 1, gets at 1.
    replace (get_collector _ out) with (get_collector h1 out) by done.
    rewrite Hout1, Hb. unfold bind at 1, gets at 1, ret.
    eexists. split; [reflexivity|].
    match goal with |- context [view_block ?h2 ob] => remember h2 as h2' eqn:Hh2 end.
    assert (∀ e, view_element h2' e = view_element h1 e) as Hsame.
    { intros e. subst h2'. reflexivity. }
    assert (BlockCollector.elements h2' ob =
              BlockCollector.elements h ob ++ BlockCollector.elements h1 cb) as Hel.
    { subst h2'. unfold BlockCollector.elements. cbn [block_collectors].
      rewrite list_lookup_total_alter_eq by lia. by rewrite Hbs. }
    split; [|split].
    + unfold view_block. rewrite Hel, fmap_app. f_equal.
      * apply Forall_fmap_ext. eapply Forall_impl; [exact Hvalid|].
        intros e He. cbn. rewrite Hsame. by apply view_element_frame.
      * transitivity (view_block h1 cb).
        { unfold view_block. apply list_fmap_ext. intros k e _. apply Hsame. }
        rewrite Hview1, Hlinks. reflexivity.
    + subst h2'. exact Hls1.
    + subst h2'. replace (get_collector _ out) with (get_collector h1 out) by done.
      exact Hout1.
Qed.

(** [Collector.render] on a document with blocks pending: the worksheet
    gets the blocks of the document and then the blocks of the references,
    one row each from the first row on, and the registry is left empty.
    An inline that is pending beside the blocks is not rendered. *)
Theorem render_appends_references (h : heap) (out ob : nat)
    (worksheet : gmap (nat * nat) openpyxl.Cell) (r c : nat)
    (Hout : out < length (collectors h))
    (Hblock : block (get_collector h out) = Some ob)
    (Hob : ob < length (block_collectors h))
    (Hvalid : Forall (valid_element h) (BlockCollector.elements h ob)) :
  ∃ worksheet' h',
    Collector.render ExcelRenderer.terminate out worksheet r c h = Ok worksheet' h' ∧
    links h' = [] ∧
    rows_written worksheet r c (view_block h ob ++ reference_rows (links h)) worksheet'.
Proof.
  destruct (render_pending_run h out ob worksheet r c Hout Hblock Hob Hvalid)
    as (h' & Hrun & Hview & Hls & _).
  eexists _, h'. split; [|split; [exact Hls|]].
  - rewrite render_unfold. unfold bind at 1, gets at 1. rewrite Hblock.
    unfold bind at 1, ret at 1. exact Hrun.
  - rewrite <-Hview. apply render_written.
Qed.

Lemma render_appends_references_witness :
  ∃ worksheet' h',
    Collector.render ExcelRenderer.terminate 0 ∅ 1 1
      (state_of (paragraph_with_link empty_heap)) = Ok worksheet' h' ∧
    links h' = [] ∧
    rows_written ∅ 1 1
      (view_block (state_of (paragraph_with_link empty_heap)) 1
         ++ reference_rows (links (state_of (paragraph_with_link empty_heap))))
      worksheet'.
Proof.
  apply (render_appends_references (state_of (paragraph_with_link empty_heap)) 0 1 ∅ 1 1).
  - vm_compute. lia.
  - vm_compute. reflexivity.
  - vm_compute. lia.
  - vm_compute. repeat constructor.
Defined.

(** [Collector.render] on a collector with no block: an inline that is
    pending becomes the one block, with no style, of the document and is
    rendered in one row, before the rows of the references; with no inline
    either, the references are all there is.  The collector has no inline
    afterwards. *)
Theorem render_without_blocks (h : heap) (out : nat)
    (worksheet : gmap (nat * nat) openpyxl.Cell) (r c : nat)
    (Hout : out < length (collectors h))
    (Hnone : block (get_collector h out) = None)
    (Hvalid : ∀ i, inline (get_collector h out) = Some i → valid_inline h i) :
  ∃ worksheet' h',
    Collector.render ExcelRenderer.terminate out worksheet r c h = Ok worksheet' h' ∧
    links h' = [] ∧
    inline (get_collector h' out) = None ∧
    rows_written worksheet r c
      (inline_rows h (get_collector h out) ++ reference_rows (links h)) worksheet'.
Proof.
  rewrite render_unfold. unfold bind at 1, gets at 1. rewrite Hnone.
  assert (∃ h1 es,
    (b <- BlockCollector.__init__ (inline (get_collector h out)) ;;
     set_block out (Some b) ;; set_inline out None) h = Ok tt h1 ∧
    length (collectors h1) = length (collectors h) ∧
    get_collector h1 out = mkCollector None (Some (length (block_collectors h))) ∧
    length (block_collectors h1) = S (length (block_collectors h)) ∧
    BlockCollector.elements h1 (length (block_collectors h)) = es ∧
    Forall (valid_element h1) es ∧
    view_element h1 <$> es = inline_rows h (get_collector h out) ∧
    links h1 = links h) as (h1 & es & Hrun1 & Hlen1 & Hc1 & Hbl1 & Hel1 & Hv1 & Hview1 & Hls1).
  { unfold inline_rows. destruct (inline (get_collector h out)) as [i|] eqn:Hi.
    - unfold bind at 1. rewrite BlockCollector_init_run. step. unfold modify. store.
      eexists _, [mkBlockElement i (length (style_lists h))]. split; [reflexivity|].
      cbn. split; [by rewrite !length_alter|]. split; [|split; [|split; [|split; [|split]]]].
      + unfold get_collector. cbn.
        rewrite !list_lookup_total_alter_eq by (by rewrite ?length_alter). done.
      + rewrite length_app. cbn. lia.
      + unfold BlockCollector.elements. cbn. by apply list_lookup_total_middle.
      + apply Forall_singleton. split; cbn.
        * rewrite length_app. cbn. lia.
        * exact (Hvalid i eq_refl).
      + unfold view_element. cbn. f_equal. f_equal.
        unfold get_styles. cbn. by apply list_lookup_total_middle.
      + done.
    - unfold bind at 1. rewrite BlockCollector_init_None_run. step. unfold modify. store.
      eexists _, []. split; [reflexivity|].
      cbn. split; [by rewrite !length_alter|]. split; [|split; [|split; [|done]]].
      + unfold get_collector. cbn.
        rewrite !list_lookup_total_alter_eq by (by rewrite ?length_alter). done.
      + rewrite length_app. cbn. lia.
      + unfold BlockCollector.elements. cbn. by apply list_lookup_total_middle. }
  unfold bind at 1. rewrite Hrun1.
  destruct (render_pending_run h1 out (length (block_collectors h)) worksheet r c)
    as (h' & Hrun & Hview & Hls & Hc).
  { lia. }
  { by rewrite Hc1. }
  { lia. }
  { by rewrite Hel1. }
  eexists _, h'. split; [exact Hrun|]. split; [exact Hls|]. split.
  - by rewrite Hc, Hc1.
  - rewrite <-Hview1, <-Hel1, <-Hls1.
    change (view_element h1 <$> BlockCollector.elements h1 (length (block_collectors h)))
      with (view_block h1 (length (block_collectors h))).
    rewrite <-Hview. apply render_written.
Qed.

Lemma render_without_blocks_witness :
  ∃ worksheet' h',
    Collector.render ExcelRenderer.terminate 0 ∅ 1 1
      (state_of (link_content empty_heap)) = Ok worksheet' h' ∧
    links h' = [] ∧
    inline (get_collector h' 0) = None ∧
    rows_written ∅ 1 1
      (inline_rows (state_of (link_content empty_heap))
                   (get_collector (state_of (link_content empty_heap)) 0)
         ++ reference_rows (links (state_of (link_content empty_heap))))
      worksheet'.
Proof.
  apply (render_without_blocks (state_of (link_content empty_heap)) 0 ∅ 1 1).
  - vm_compute. lia.
  - vm_compute. reflexivity.
  - intros i Hi. vm_compute in Hi. injection Hi as <-.
    split; [vm_compute; lia|]. vm_compute. repeat constructor.
Defined.

(** ** The font of a list of styles *)

Lemma resolved_font_last styles : ∀ f,
  resolved_font f styles =
    match last (omap (λ s, ExcelCollectorRenderer.FONTS !! s) styles) with
    | Some g => Some g
    | None => f
    end.
Proof.
  unfold resolved_font.
  induction styles as [|s styles IH]; intros f; [done|].
  cbn [foldl]. rewrite IH. cbn [omap list_omap].
  destruct (ExcelCollectorRenderer.FONTS !! s) as [g|] eqn:Hs; [|done].
  rewrite last_cons.
  by destruct (last _).
Qed.

(** The font that [create_style] resolves is the font of the last heading
    tag of the list, whatever tags stand between and after the heading
    tags, and there is no font when the list has no heading tag. *)
Theorem create_style_font_last_heading (styles : list string) :
  (ExcelCollectorRenderer.create_style styles).1.1 =
    last (omap (λ s, ExcelCollectorRenderer.FONTS !! s) styles).
Proof.
  unfold ExcelCollectorRenderer.create_style. rewrite foldl_style_step. cbn [fst].
  rewrite resolved_font_last.
  by destruct (last (omap (λ s, ExcelCollectorRenderer.FONTS !! s) styles)).
Qed.

(** ** The numbers of the links and the rows of the references *)

Lemma enumerate_lookup {A} (xs : list A) : ∀ k p,
  enumerate k xs !! p = (λ x, (k + p, x)) <$> xs !! p.
Proof.
  induction xs as [|x xs IH]; intros k p; [done|].
  destruct p as [|p]; cbn.
  - by rewrite Nat.add_0_r.
  - rewrite IH. by replace (S k + p) with (k + S p) by lia.
Qed.

(** Over a conversion, the registry holds every target that was
    registered once, and the number that [link] gets for a target is the
    number of the row of that target among the rows that [terminate]
    emits: the n-th row after the blank one is "[n] target". *)
Theorem link_numbers_match_references (h : heap) (targets : list string) :
  ∃ idxs h',
    register_all targets (new_renderer h) = Ok idxs h' ∧
    NoDup (links h') ∧
    (∀ t, t ∈ links h' ↔ t ∈ targets) ∧
    ∀ k t idx, targets !! k = Some t → idxs !! k = Some idx →
      reference_rows (links h') !! idx = Some (link_row (idx, t)).
Proof.
  destruct (register_all_spec targets (new_renderer h)) as (idxs & Hrun & Hlen & Hidx).
  cbn [new_renderer links upd_links] in Hidx.
  eexists idxs, _. split; [exact Hrun|]. cbn [links upd_links new_renderer].
  split; [|split].
  - apply foldl_add_NoDup, NoDup_nil_2.
  - intros t. rewrite <-!(elem_of_list_to_set (C := gset string)).
    rewrite foldl_add_set. cbn. by rewrite (left_id_L ∅ (∪)).
  - intros k t idx Hk Hi. destruct (Hidx k t Hk) as (p & Hp & Hi').
    rewrite Hi in Hi'. injection Hi' as ->.
    apply IndexedList_index_Some in Hp as [Hp _].
    destruct (foldl openpyxl.IndexedList_add [] targets) as [|l ls] eqn:Hfinal; [done|].
    unfold reference_rows.
    change ((blank_row :: (link_row <$> enumerate 1 (l :: ls))) !! S p)
      with ((link_row <$> enumerate 1 (l :: ls)) !! p).
    rewrite list_lookup_fmap, enumerate_lookup, Hp. reflexivity.
Qed.
